(** * Share allocation of a Sector (objects/sectors/source/sector.cpp)

    A shallow embedding of the share calculation, the fixed-output adjustment,
    the capacity-limit resolution, the calibration check and the output
    summation of [Sector], and the properties the specification states about
    them.

    Conventions of the embedding.
    - A C++ [double] is a binary64 float: Rocq's primitive [float], with the
      IEEE comparisons ([x > y] is false as soon as one side is NaN) and a
      division that never traps ([x / 0] is an infinity or NaN).
    - A C++ [int] period is a [Z]; the per-period vectors ([output],
      [capLimitsPresent]) are functions of the period, read and written only at
      the period a routine is called with (the source indexes them unchecked).
    - [subsec], the vector of owned subsectors, is a list in input order;
      [nosubsec] is its length, as [Sector::completeInit] sets it.
    - [cerr], [cout] and logger output become a list of [Event]s; a failed
      [assert] ends the run ([Aborts]).
    - [Subsector], [util], the marketplace and the configuration are not part
      of the embedded file: the sector code is written over their interfaces. *)

From Stdlib Require Import List Bool ZArith Lia Floats.
From Stdlib Require String Uint63.
Import ListNotations.

Set Warnings "-inexact-float".

(** ** Doubles *)

Definition double : Type := float.
Bind Scope float_scope with double.

Module Double.

(** The C++ comparison operators on [double], as booleans. *)
Definition gt (x y : double) : bool := PrimFloat.ltb y x.
Definition lt (x y : double) : bool := PrimFloat.ltb x y.
Definition le (x y : double) : bool := PrimFloat.leb x y.
Definition eq (x y : double) : bool := PrimFloat.eqb x y.
Definition ne (x y : double) : bool := negb (PrimFloat.eqb x y).

(** [fabs], and [abs] on a [double] argument. *)
Definition fabs (x : double) : double := PrimFloat.abs x.

(** [std::max] on doubles: [(a < b) ? b : a]. *)
Definition max (a b : double) : double := if lt a b then b else a.

(** [x == x]: [x] is not NaN. *)
Definition is_number (x : double) : bool := PrimFloat.eqb x x.

End Double.

(** The comparisons are written as in the source, in the scope of the float
    literals and arithmetic. *)
Notation "x > y" := (Double.gt x y) : float_scope.
Notation "x < y" := (Double.lt x y) : float_scope.
Notation "x <= y" := (Double.le x y) : float_scope.
Notation "x == y" := (Double.eq x y) (at level 70, no associativity) : float_scope.
Notation "x != y" := (Double.ne x y) (at level 70, no associativity) : float_scope.

(** ** Output streams and assertions *)

(** What the embedded routines write to [cerr], [cout] or the main log. *)
Inductive Event : Type :=
| DemandNegative
    (* "ERROR: Demand value < 0 for good ..." *)
| SharesNotOne (sumshares : double) (shares : list double)
    (* "ERROR: Shares do not sum to 1. Sum = ..." and the list of shares *)
| InsufficientCapacity
    (* "...: Insufficient capacity to meet demand in Sector ..." *)
| CapLimitNotResolved
    (* "Capacity limit not resolved in Sector ..." *)
| CalibrationMismatch (totalFixed calDiff percent : double)
    (* "WARNING: ... != cal+fixed vals (...) ... by: ... (...%)" *)
| InvalidOutput (i : nat) (temp : double)
    (* "output for subSector i (...) is not valid, with value ..." *)
| SupplyDemandMismatch (diff mrksupply mrkdmd : double)
    (* "... demand and derived supply are not equal by: ..." *)
| IllegalSubsector (subsectorNum : Z).
    (* "Illegal Subsector number: ..." *)

(** A routine either returns, having written [log], or stops at a failed
    [assert], having written [log] before it. *)
Inductive Outcome (A : Type) : Type :=
| Returns (log : list Event) (a : A)
| Aborts (log : list Event).

Arguments Returns {A} log a.
Arguments Aborts {A} log.

Definition ret {A : Type} (a : A) : Outcome A := Returns [] a.

Definition bind {A B : Type} (c : Outcome A) (k : A -> Outcome B) : Outcome B :=
  match c with
  | Returns log a =>
      match k a with
      | Returns log' b => Returns (log ++ log') b
      | Aborts log' => Aborts (log ++ log')
      end
  | Aborts log => Aborts log
  end.

Definition tell (e : Event) : Outcome unit := Returns [e] tt.

Definition assert (b : bool) : Outcome unit :=
  if b then ret tt else Aborts [].

Definition when (b : bool) (c : Outcome unit) : Outcome unit :=
  if b then c else ret tt.

Definition logOf {A : Type} (c : Outcome A) : list Event :=
  match c with Returns log _ => log | Aborts log => log end.

Definition valueOf {A : Type} (c : Outcome A) : option A :=
  match c with Returns _ a => Some a | Aborts _ => None end.

Declare Scope outcome_scope.
Delimit Scope outcome_scope with outcome.
Notation "x <- c ;; k" := (bind c (fun x => k))
  (at level 61, c at next level, right associativity) : outcome_scope.
Notation "' pat <- c ;; k" := (bind c (fun x => match x with pat => k end))
  (at level 61, pat pattern, c at next level, right associativity) : outcome_scope.
Notation "c ;; k" := (bind c (fun _ => k))
  (at level 61, right associativity) : outcome_scope.

(** ** The collaborators of a Sector *)

(** [util::getSmallNumber], [util::getTinyNumber] and [util::isValidNumber]
    (util/base/include/util.h). *)
Class Util : Type := {
  getSmallNumber : double;
  getTinyNumber : double;
  isValidNumber : double -> bool
}.

(** The marketplace, as this sector reads it: [getDemand] at the sector's own
    name and region. *)
Record Marketplace : Type := { getDemand : Z -> double }.

(** The configuration switches the sector reads. *)
Record Configuration : Type := { CalibrationActive : bool }.

(** The member functions of [Subsector] that the sector calls
    (sectors/include/subsector.h); [GDP] is the type of the GDP object that is
    only handed through. A mutating call returns the subsector after the call. *)
Class SubsectorOps (GDP S : Type) : Type := {
  calcShare_sub : Z -> GDP -> S -> S;
  getShare : S -> Z -> double;
  normShare : double -> Z -> S -> S;
  getFixedOutput : S -> Z -> double;
  resetfixedOutput : Z -> S -> S;
  scalefixedOutput : double -> Z -> S -> S;
  getFixedShare : S -> Z -> double;
  setFixedShare : Z -> double -> S -> S;
  setShareToFixedValue : Z -> S -> S;
  getCapacityLimit : S -> Z -> double;
  getCapLimitStatus : S -> Z -> bool;
  setCapLimitStatus : bool -> Z -> S -> S;
  capLimitTransform : double -> double -> double;
  limitShares : double -> Z -> S -> S;
  adjShares : double -> double -> double -> Z -> S -> S;
  setoutput : double -> Z -> GDP -> S -> S;
  (* not const in the source: "getOutput() calls subsector summing routine" *)
  getOutput : Z -> S -> double * S;
  getTotalCalOutputs : S -> Z -> double;
  allOuputFixed : S -> Z -> bool
}.

(** ** The Sector *)

Section SectorModel.

Context {GDP S : Type} `{util : Util} `{ops : SubsectorOps GDP S}.

#[local] Open Scope outcome_scope.

(** The data members of [Sector] that the embedded routines read or write. *)
Record Sector : Type := mkSector {
  subsec : list S;
  anyFixedCapacity : bool;
  debugChecking : bool;
  capLimitsPresent : Z -> bool;
  output : Z -> double
}.

Definition nosubsec (sec : Sector) : nat := length (subsec sec).

Definition set_subsec (sec : Sector) (l : list S) : Sector :=
  mkSector l (anyFixedCapacity sec) (debugChecking sec)
           (capLimitsPresent sec) (output sec).

(** [output[ period ] = v]. *)
Definition set_output (sec : Sector) (period : Z) (v : double) : Sector :=
  mkSector (subsec sec) (anyFixedCapacity sec) (debugChecking sec)
           (capLimitsPresent sec)
           (fun p => if Z.eqb p period then v else output sec p).

(** *** Sums over the subsectors *)

(** [Sector::getFixedOutput] (with [printValues] at its default, false). *)
Definition Sector_getFixedOutput (sec : Sector) (period : Z) : double :=
  fold_left (fun totalfixedOutput ss =>
               (totalfixedOutput + getFixedOutput ss period)%float)
            (subsec sec) 0%float.

(** [Sector::getCalOutput]. *)
Definition getCalOutput (sec : Sector) (period : Z) : double :=
  fold_left (fun totalCalOutput ss =>
               (totalCalOutput + getTotalCalOutputs ss period)%float)
            (subsec sec) 0%float.

(** [Sector::outputsAllFixed]: the loop returns false at the first subsector
    that is not all fixed. *)
Definition outputsAllFixed (sec : Sector) (period : Z) : bool :=
  if (period <? 0)%Z then false
  else forallb (fun ss => allOuputFixed ss period) (subsec sec).

(** [Sector::getOutput]. *)
Definition Sector_getOutput (sec : Sector) (period : Z) : double :=
  output sec period.

(** *** Sector::isAllCalibrated *)

Definition isAllCalibrated (conf : Configuration) (sec : Sector)
    (period : Z) (calAccuracy : double) (printWarnings : bool)
    : Outcome bool :=
  if (0 <? period)%Z && CalibrationActive conf then
    let calOutputs := getCalOutput sec period in
    let totalFixed := (calOutputs + Sector_getFixedOutput sec period)%float in
    let calDiff := (totalFixed - Sector_getOutput sec period)%float in
    if (calOutputs > 0)%float then
      let diffFraction := (calDiff / calOutputs)%float in
      if (calDiff > calAccuracy)%float
         || ((Double.fabs diffFraction > calAccuracy)%float
             && outputsAllFixed sec period)
      then
        when printWarnings
          (tell (CalibrationMismatch totalFixed calDiff
                   (calDiff * 100 / calOutputs)%float)) ;;
        ret false
      else ret true
    else ret true
  else ret true.

(** *** Sector::getFixedShare *)

(** The body of [Sector::getFixedShare] for a subsector number in range. *)
Definition fixedShareOf (mkt : Marketplace) (period : Z) (ss : S) : double :=
  let fixedShare := getFixedShare ss period in
  if (fixedShare > 0)%float then
    let mktDmd := getDemand mkt period in
    if (mktDmd > 0)%float then (getFixedOutput ss period / mktDmd)%float
    else fixedShare
  else fixedShare.

Definition Sector_getFixedShare (mkt : Marketplace) (sec : Sector)
    (subsectorNum : Z) (period : Z) : Outcome double :=
  if (0 <=? subsectorNum)%Z && (subsectorNum <? Z.of_nat (nosubsec sec))%Z then
    match nth_error (subsec sec) (Z.to_nat subsectorNum) with
    | Some ss => ret (fixedShareOf mkt period ss)
    | None => ret 0%float (* not reached: the number is in range *)
    end
  else
    tell (IllegalSubsector subsectorNum) ;; ret 0%float.

(** *** Sector::adjSharesCapLimit *)

(** The local variables the inner loop over the subsectors accumulates. *)
Record CapScan : Type := mkCapScan {
  capLimited : bool;
  sumSharesOverLimit : double;
  sumSharesNotLimited : double;
  totalFixedShares : double
}.

(** The effective ceiling of a subsector: its own share once it has been
    limited, the transformed capacity limit before. *)
Definition tempCapacityLimit (period : Z) (ss : S) : double :=
  if getCapLimitStatus ss period then getShare ss period
  else capLimitTransform (getCapacityLimit ss period) (getShare ss period).

(** One pass of the inner loop body, for subsector [ss]. *)
Definition capScanStep (period : Z) (acc : CapScan) (ss : S) : CapScan :=
  let SMALL_NUM := getSmallNumber in
  let tempSubSectShare := getShare ss period in
  let limit := tempCapacityLimit period ss in
  let isOver := (tempSubSectShare - limit > SMALL_NUM)%float in
  let capLimited1 := if isOver then true else capLimited acc in
  let over1 :=
    if isOver then (sumSharesOverLimit acc + (tempSubSectShare - limit))%float
    else sumSharesOverLimit acc in
  let notLimited1 :=
    if (tempSubSectShare < limit)%float
    then (sumSharesNotLimited acc + tempSubSectShare)%float
    else sumSharesNotLimited acc in
  let isFixed := (getFixedShare ss period > 0)%float in
  let notLimited2 :=
    if isFixed then (notLimited1 - tempSubSectShare)%float else notLimited1 in
  let fixed2 :=
    if isFixed then (totalFixedShares acc + getFixedShare ss period)%float
    else totalFixedShares acc in
  mkCapScan capLimited1 over1 notLimited2 fixed2.

(** The inner loop: both sums start at 0 and [capLimited] at false in every
    outer iteration; [totalFixedShares] is carried over. *)
Definition capScan (period : Z) (fixedSoFar : double) (l : list S) : CapScan :=
  fold_left (capScanStep period) l (mkCapScan false 0%float 0%float fixedSoFar).

(** The re-normalisation at the end of one outer iteration. *)
Definition capRedistribute (period : Z) (scan : CapScan) (l : list S)
    : Outcome (list S) :=
  if capLimited scan then
    if (sumSharesNotLimited scan > 0)%float then
      let multiplier :=
        (1 + sumSharesOverLimit scan / sumSharesNotLimited scan)%float in
      ret (map (limitShares multiplier period) l)
    else
      when (sumSharesOverLimit scan > 0)%float (tell InsufficientCapacity) ;;
      ret l
  else ret l.

(** The state of the outer loop; [cl_iterations] counts the executions of
    its body. *)
Record CapLoop : Type := mkCapLoop {
  cl_subsec : list S;
  cl_capLimited : bool;
  cl_totalFixedShares : double;
  cl_iterations : nat
}.

(** [for (int n = 0; n < nosubsec && capLimited; n++)], with [budget] the
    number [nosubsec - n] of iterations the bound still allows. *)
Fixpoint capLimitLoop (budget : nat) (period : Z) (st : CapLoop)
    : Outcome CapLoop :=
  match budget with
  | O => ret st
  | Datatypes.S budget' =>
      if cl_capLimited st then
        let scan := capScan period (cl_totalFixedShares st) (cl_subsec st) in
        l <- capRedistribute period scan (cl_subsec st) ;;
        capLimitLoop budget' period
          (mkCapLoop l (capLimited scan) (totalFixedShares scan)
                     (Datatypes.S (cl_iterations st)))
      else ret st
  end.

(** The outer loop from the state the routine enters it with. *)
Definition capLimitRun (sec : Sector) (period : Z) : Outcome CapLoop :=
  capLimitLoop (nosubsec sec) period
               (mkCapLoop (subsec sec) true 0%float 0%nat).

Definition adjSharesCapLimit (sec : Sector) (period : Z) : Outcome Sector :=
  st <- capLimitRun sec period ;;
  when (cl_capLimited st) (tell CapLimitNotResolved) ;;
  ret (set_subsec sec (cl_subsec st)).

(** *** Sector::checkShareSum *)

Fixpoint checkShareSum_loop (period : Z) (l : list S) (sumshares : double)
    : Outcome double :=
  match l with
  | [] => ret sumshares
  | ss :: rest =>
      assert (isValidNumber (getShare ss period)) ;;
      checkShareSum_loop period rest (sumshares + getShare ss period)%float
  end.

Definition checkShareSum (sec : Sector) (period : Z) : Outcome unit :=
  let SMALL_NUM := getSmallNumber in
  sumshares <- checkShareSum_loop period (subsec sec) 0%float ;;
  when (Double.fabs (sumshares - 1) > SMALL_NUM)%float
    (tell (SharesNotOne sumshares
             (map (fun ss => getShare ss period) (subsec sec)))).

(** *** Sector::calcShare *)

(** The first loop: every subsector computes its share; [fixedSum] collects
    the fixed shares and [sum] the shares that are not fixed; the capacity
    limit status of every subsector is reset. [Sector::getFixedShare] is
    called with the number [i] of the subsector just updated, which is in
    range. *)
Fixpoint calcShare_sums (mkt : Marketplace) (anyFixed : bool) (period : Z)
    (gdp : GDP) (l : list S) (sum fixedSum : double)
    : list S * double * double :=
  match l with
  | [] => ([], sum, fixedSum)
  | ss :: rest =>
      let ss1 := calcShare_sub period gdp ss in
      let fixedShare :=
        if anyFixed then fixedShareOf mkt period ss1 else 0%float in
      let fixedSum1 :=
        if anyFixed then (fixedSum + fixedShare)%float else fixedSum in
      let sum1 :=
        if (fixedShare < getTinyNumber)%float
        then (sum + getShare ss1 period)%float else sum in
      let ss2 := setCapLimitStatus false period ss1 in
      let '(rest', sum', fixedSum') :=
        calcShare_sums mkt anyFixed period gdp rest sum1 fixedSum1 in
      (ss2 :: rest', sum', fixedSum')
  end.

(** The body of the second loop, for one subsector. *)
Definition calcShare_normalize (mkt : Marketplace) (period : Z)
    (sum fixedSum scaleFixedShare : double) (ss : S) : S :=
  if (getFixedOutput ss period == 0)%float then
    if (fixedSum < 1)%float
    then normShare (sum / (1 - fixedSum))%float period ss
    else normShare (sum / getTinyNumber)%float period ss
  else
    let fixedShare := (fixedShareOf mkt period ss * scaleFixedShare)%float in
    let currentShare := getFixedShare ss period in
    let ss1 := setShareToFixedValue period ss in
    let ss2 :=
      if (currentShare > 0)%float
      then scalefixedOutput (fixedShare / currentShare)%float period ss1
      else ss1 in
    setShareToFixedValue period ss2.

(** The shares as the two loops leave them, before the capacity limits. *)
Definition calcShare_normalized (mkt : Marketplace) (sec : Sector)
    (period : Z) (gdp : GDP) : Sector :=
  let '(l1, sum, fixedSum) :=
    calcShare_sums mkt (anyFixedCapacity sec) period gdp (subsec sec)
                   0%float 0%float in
  let scaleFixedShare :=
    if (fixedSum > 1)%float then (1 / fixedSum)%float else 1%float in
  let fixedSum := if (fixedSum > 1)%float then 1%float else fixedSum in
  set_subsec sec
    (map (calcShare_normalize mkt period sum fixedSum scaleFixedShare) l1).

Definition calcShare (mkt : Marketplace) (sec : Sector) (period : Z)
    (gdp : GDP) : Outcome Sector :=
  let sec1 := calcShare_normalized mkt sec period gdp in
  sec2 <- (if capLimitsPresent sec1 period
           then adjSharesCapLimit sec1 period else ret sec1) ;;
  when (debugChecking sec2) (checkShareSum sec2 period) ;;
  ret sec2.

(** *** Sector::adjustForFixedOutput *)

(** The fixed share the first loop sets for a fixed output. *)
Definition impliedFixedShare (fixedOutput marketDemand : double) : double :=
  let shareVal := (fixedOutput / marketDemand)%float in
  if (shareVal > 1)%float then 1%float else shareVal.

(** The subsector as the body of the first loop leaves it. *)
Definition fixedOutputStep (marketDemand : double) (period : Z) (ss : S) : S :=
  let ss1 := resetfixedOutput period ss in
  let fixedOutput := getFixedOutput ss1 period in
  let ss2 := setFixedShare period 0%float ss1 in
  if (fixedOutput == 0)%float then ss2
  else if (marketDemand != 0)%float
       then setFixedShare period
              (impliedFixedShare fixedOutput marketDemand) ss2
       else ss2.

(** The first loop: the subsectors after it, [totalfixedOutput] and
    [variableShares]. *)
Fixpoint fixedOutputTotals (marketDemand : double) (period : Z) (l : list S)
    (totalfixedOutput variableShares : double) : list S * double * double :=
  match l with
  | [] => ([], totalfixedOutput, variableShares)
  | ss :: rest =>
      let ss1 := resetfixedOutput period ss in
      let fixedOutput := getFixedOutput ss1 period in
      let ss2 := setFixedShare period 0%float ss1 in
      let variableShares1 :=
        if (fixedOutput == 0)%float
        then (variableShares + getShare ss2 period)%float
        else variableShares in
      let '(rest', total, variable) :=
        fixedOutputTotals marketDemand period rest
          (totalfixedOutput + fixedOutput)%float variableShares1 in
      (fixedOutputStep marketDemand period ss :: rest', total, variable)
  end.

(** "Scale down fixed output if its greater than actual demand": the
    subsectors and [totalfixedOutput] after the second loop. *)
Definition scaleDownFixedOutput (marketDemand : double) (period : Z)
    (l : list S) (totalfixedOutput : double) : list S * double :=
  if (totalfixedOutput > marketDemand)%float then
    (map (scalefixedOutput (marketDemand / totalfixedOutput)%float period) l,
     marketDemand)
  else (l, totalfixedOutput).

(** "Adjust shares for any fixed output": the last block. *)
Definition adjustVariableShares (marketDemand : double) (period : Z)
    (l : list S) (totalfixedOutput variableShares : double)
    : Outcome (list S) :=
  if (totalfixedOutput > 0)%float then
    variableSharesNew <-
      (if (totalfixedOutput > marketDemand)%float then ret 0%float
       else assert (marketDemand != 0)%float ;;
            ret (1 - totalfixedOutput / marketDemand)%float) ;;
    let shareRatio :=
      if (variableShares == 0)%float then 0%float
      else (variableSharesNew / variableShares)%float in
    ret (map (adjShares marketDemand shareRatio totalfixedOutput period) l)
  else ret l.

Definition adjustForFixedOutput (marketDemand : double) (period : Z)
    (sec : Sector) : Outcome Sector :=
  let '(l1, total, variableShares) :=
    fixedOutputTotals marketDemand period (subsec sec) 0%float 0%float in
  let '(l2, totalfixedOutput) :=
    scaleDownFixedOutput marketDemand period l1 total in
  l3 <- adjustVariableShares marketDemand period l2 totalfixedOutput
          variableShares ;;
  ret (set_subsec sec l3).

(** *** Sector::sumOutput, Sector::updateAndGetOutput *)

(** The loop of [sumOutput] from subsector number [i] on, [out] being
    [output[ period ]] so far. *)
Fixpoint sumOutput_loop (period : Z) (i : nat) (l : list S) (out : double)
    : Outcome (list S * double) :=
  match l with
  | [] => ret ([], out)
  | ss :: rest =>
      let '(temp, ss') := getOutput period ss in
      when (negb (isValidNumber temp)) (tell (InvalidOutput i temp)) ;;
      r <- sumOutput_loop period (Datatypes.S i) rest (out + temp)%float ;;
      ret (ss' :: fst r, snd r)
  end.

Definition sumOutput (sec : Sector) (period : Z) : Outcome Sector :=
  r <- sumOutput_loop period 0 (subsec sec) 0%float ;;
  ret (set_output (set_subsec sec (fst r)) period (snd r)).

Definition updateAndGetOutput (sec : Sector) (period : Z)
    : Outcome (double * Sector) :=
  if (0 <? period)%Z || (output sec period == 0)%float then
    sec' <- sumOutput sec period ;;
    ret (output sec' period, sec')
  else ret (output sec period, sec).

(** *** Sector::supply *)

Definition supply (mkt : Marketplace) (sec : Sector) (period : Z) (gdp : GDP)
    : Outcome Sector :=
  let mrkdmd := getDemand mkt period in
  when (mrkdmd < 0)%float (tell DemandNegative) ;;
  sec1 <- (if anyFixedCapacity sec
           then adjustForFixedOutput mrkdmd period sec else ret sec) ;;
  let sec2 :=
    set_subsec sec1 (map (setoutput mrkdmd period gdp) (subsec sec1)) in
  if debugChecking sec2 then
    r <- updateAndGetOutput sec2 period ;;
    let mrksupply := fst r in
    when ((0 <? period)%Z
          && (Double.fabs (mrksupply - mrkdmd) > 0.01)%float
          && (mrkdmd != 1)%float)
      (let mrksupply := (mrksupply * 1.000000001)%float in
       tell (SupplyDemandMismatch (Double.fabs (mrksupply - mrkdmd)%float)
                                  mrksupply mrkdmd)) ;;
    ret (snd r)
  else ret sec2.

End SectorModel.

Arguments Sector S : clear implicits.


(** ** The quantities the properties are stated with *)

Section Quantities.

Context {GDP S : Type} `{util : Util} `{ops : SubsectorOps GDP S}.

(** The total of the subsector outputs, as [sumOutput] adds them up. *)
Definition subsectorOutputTotal (period : Z) (l : list S) : double :=
  fold_left (fun out ss => (out + fst (getOutput period ss))%float)
            l 0%float.

(** The test of the inner loop: the share exceeds the effective ceiling by
    more than [SMALL_NUM]. *)
Definition isOverLimit (period : Z) (ss : S) : bool :=
  (getShare ss period - tempCapacityLimit period ss > getSmallNumber)%float.

(** The excess of the subsectors over their limits, added up in input order. *)
Definition sharesOverLimit (period : Z) (l : list S) : double :=
  fold_left
    (fun over ss =>
       if isOverLimit period ss
       then (over + (getShare ss period - tempCapacityLimit period ss))%float
       else over)
    l 0%float.

(** The shares strictly under their ceiling, less the share of every subsector
    with a fixed share, in input order. *)
Definition sharesNotLimited (period : Z) (l : list S) : double :=
  fold_left
    (fun notLimited ss =>
       let notLimited1 :=
         if (getShare ss period < tempCapacityLimit period ss)%float
         then (notLimited + getShare ss period)%float else notLimited in
       if (getFixedShare ss period > 0)%float
       then (notLimited1 - getShare ss period)%float else notLimited1)
    l 0%float.

(** The sum of [max(0, share - ceiling)] over the subsectors, the excess as
    the specification words it (4.3, step 2), for comparison with
    [sharesOverLimit]. *)
Definition excessOverCeiling (period : Z) (l : list S) : double :=
  fold_left
    (fun over ss =>
       (over + Double.max 0 (getShare ss period - tempCapacityLimit period ss))
       %float)
    l 0%float.

(** [totalfixedOutput] as the first loop of [adjustForFixedOutput] sums it. *)
Definition summedFixedOutput (marketDemand : double) (period : Z)
    (sec : Sector S) : double :=
  snd (fst (fixedOutputTotals marketDemand period (subsec sec) 0%float 0%float)).

(** [variableShares] as the first loop sums it. *)
Definition summedVariableShares (marketDemand : double) (period : Z)
    (sec : Sector S) : double :=
  snd (fixedOutputTotals marketDemand period (subsec sec) 0%float 0%float).

(** The shares of the subsectors, in input order. *)
Definition shares (sec : Sector S) (period : Z) : list double :=
  map (fun ss => getShare ss period) (subsec sec).

(** Their sum, as [checkShareSum] adds them up. *)
Definition sumShares (sec : Sector S) (period : Z) : double :=
  fold_left (fun sumshares share => (sumshares + share)%float)
            (shares sec period) 0%float.

End Quantities.

(** ** What a routine keeps and what it reports *)

Section Footprint.

Context {GDP S : Type} `{util : Util} `{ops : SubsectorOps GDP S}.

(** Two sectors that differ in their subsectors at most. *)
Definition sameMembers (sec sec' : Sector S) : Prop :=
  anyFixedCapacity sec' = anyFixedCapacity sec
  /\ debugChecking sec' = debugChecking sec
  /\ capLimitsPresent sec' = capLimitsPresent sec
  /\ output sec' = output sec.

(** The messages [sumOutput] writes for the subsectors [l], numbered from
    [i]: one for every output that is not a valid number. *)
Fixpoint invalidOutputs (period : Z) (i : nat) (l : list S) : list Event :=
  match l with
  | [] => []
  | ss :: rest =>
      (if isValidNumber (fst (getOutput period ss)) then []
       else [InvalidOutput i (fst (getOutput period ss))])
      ++ invalidOutputs period (Datatypes.S i) rest
  end.

End Footprint.

(** ** A model of the collaborators

    The subsector class, the utility constants and the GDP object live in
    files that are not embedded here. The theorems about the sector are proved
    for every implementation of their interfaces; the concrete inputs below
    run the sector code on the following model of them. *)

Module Subsector.

(** Modelled from the spec: the per-period state a subsector exposes (section
    3, "Subsector"): an unnormalized share, a normalized share, a fixed
    output quantity, a fixed share, a capacity limit, the
    capacity-limit-active flag, and the calibration figures the Calibration
    Checker sums; [fixedOutputRead] is the fixed output of the model input
    and [excess] the share that [limitShares] "keeps separately". *)
Record t : Type := mk {
  rawShare : Z -> double;
  share : Z -> double;
  fixedOutputRead : Z -> double;
  fixedOutput : Z -> double;
  fixedShare : Z -> double;
  capLimit : Z -> double;
  capLimited : Z -> bool;
  excess : Z -> double;
  calOutput : Z -> double;
  allFixed : Z -> bool;
  outputVal : Z -> double
}.

(** [a[ period ] = v] on a per-period vector. *)
Definition store {A : Type} (a : Z -> A) (period : Z) (v : A) : Z -> A :=
  fun p => if Z.eqb p period then v else a p.

Definition with_share (ss : t) (period : Z) (v : double) : t :=
  mk (rawShare ss) (store (share ss) period v) (fixedOutputRead ss)
     (fixedOutput ss) (fixedShare ss) (capLimit ss) (capLimited ss)
     (excess ss) (calOutput ss) (allFixed ss) (outputVal ss).

Definition with_fixedOutput (ss : t) (period : Z) (v : double) : t :=
  mk (rawShare ss) (share ss) (fixedOutputRead ss)
     (store (fixedOutput ss) period v) (fixedShare ss) (capLimit ss)
     (capLimited ss) (excess ss) (calOutput ss) (allFixed ss) (outputVal ss).

Definition with_fixedShare (ss : t) (period : Z) (v : double) : t :=
  mk (rawShare ss) (share ss) (fixedOutputRead ss) (fixedOutput ss)
     (store (fixedShare ss) period v) (capLimit ss) (capLimited ss)
     (excess ss) (calOutput ss) (allFixed ss) (outputVal ss).

Definition with_capLimited (ss : t) (period : Z) (v : bool) : t :=
  mk (rawShare ss) (share ss) (fixedOutputRead ss) (fixedOutput ss)
     (fixedShare ss) (capLimit ss) (store (capLimited ss) period v)
     (excess ss) (calOutput ss) (allFixed ss) (outputVal ss).

Definition with_excess (ss : t) (period : Z) (v : double) : t :=
  mk (rawShare ss) (share ss) (fixedOutputRead ss) (fixedOutput ss)
     (fixedShare ss) (capLimit ss) (capLimited ss)
     (store (excess ss) period v) (calOutput ss) (allFixed ss) (outputVal ss).

Definition with_output (ss : t) (period : Z) (v : double) : t :=
  mk (rawShare ss) (share ss) (fixedOutputRead ss) (fixedOutput ss)
     (fixedShare ss) (capLimit ss) (capLimited ss) (excess ss)
     (calOutput ss) (allFixed ss) (store (outputVal ss) period v).

(** Modelled from the spec: [Subsector::calcShare] "computes raw share from
    internal technology competition" (4.1); the competition itself is out of
    scope, its result is the subsector's unnormalized share. *)
Definition calcShare (period : Z) (gdp : unit) (ss : t) : t :=
  with_share ss period (rawShare ss period).

(** Modelled from the spec: [Subsector::normShare] "multiplies internal share
    by factor" (4.1). *)
Definition normShare (factor : double) (period : Z) (ss : t) : t :=
  with_share ss period (share ss period * factor)%float.

(** Modelled from the spec: [Subsector::resetfixedOutput], which the spec
    does not describe; the fixed output goes back to the quantity of the
    model input, undoing an earlier scaling. *)
Definition resetfixedOutput (period : Z) (ss : t) : t :=
  with_fixedOutput ss period (fixedOutputRead ss period).

(** Modelled from the spec: [Subsector::scalefixedOutput] scales the
    subsector's fixed output by the factor (4.2). *)
Definition scalefixedOutput (factor : double) (period : Z) (ss : t) : t :=
  with_fixedOutput ss period (fixedOutput ss period * factor)%float.

(** Modelled from the spec: [Subsector::setFixedShare] (4.1). *)
Definition setFixedShare (period : Z) (v : double) (ss : t) : t :=
  with_fixedShare ss period v.

(** Modelled from the spec: [Subsector::setShareToFixedValue], which the spec
    does not describe; the share becomes the fixed share. *)
Definition setShareToFixedValue (period : Z) (ss : t) : t :=
  with_share ss period (fixedShare ss period).

(** Modelled from the spec: [Subsector::setCapLimitStatus] (4.1). *)
Definition setCapLimitStatus (v : bool) (period : Z) (ss : t) : t :=
  with_capLimited ss period v.

(** Modelled from the spec: [Subsector::capLimitTransform], "a monotone
    transform function of (capacity limit, current share)" (4.3); the model
    takes the capacity limit itself as the ceiling. *)
Definition capLimitTransform (limit orgShare : double) : double := limit.

(** Modelled from the spec: [Subsector::limitShares] "caps share at the
    transformed limit and keeps excess separately", "increasing unlimited
    subsectors proportionally"; subsectors already limited and subsectors
    with a fixed share are left as they are (4.1, 4.3). *)
Definition limitShares (multiplier : double) (period : Z) (ss : t) : t :=
  if capLimited ss period then ss
  else
    let ceiling := capLimitTransform (capLimit ss period) (share ss period) in
    if (ceiling <= share ss period)%float then
      with_capLimited
        (with_excess (with_share ss period ceiling) period
                     (share ss period - ceiling)%float)
        period true
    else if (fixedShare ss period == 0)%float
         then with_share ss period (share ss period * multiplier)%float
         else ss.

(** Modelled from the spec: [Subsector::adjShares] "rescales variable-share
    subsectors to absorb the remainder" (2, 4.2): a subsector without fixed
    output has its share multiplied by [shareRatio], one with fixed output
    takes its fixed share. *)
Definition adjShares (marketDemand shareRatio totalfixedOutput : double)
    (period : Z) (ss : t) : t :=
  if (fixedOutput ss period == 0)%float
  then with_share ss period (share ss period * shareRatio)%float
  else with_share ss period (fixedShare ss period).

(** Modelled from the spec: [Subsector::setoutput], by which the sector
    "distributes demand to every subsector" (4.5): the subsector produces its
    share of the demand. *)
Definition setoutput (demand : double) (period : Z) (gdp : unit) (ss : t) : t :=
  with_output ss period (share ss period * demand)%float.

(** Modelled from the spec: the read accessors of 4.1 and 4.4. *)
#[global] Instance ops : SubsectorOps unit t :=
  Build_SubsectorOps unit t
    calcShare share normShare
    fixedOutput resetfixedOutput scalefixedOutput
    fixedShare setFixedShare setShareToFixedValue
    capLimit capLimited setCapLimitStatus capLimitTransform limitShares
    adjShares setoutput
    (fun period ss => (outputVal ss period, ss))
    calOutput allFixed.

(** Modelled from the spec: the tolerance [SMALL_NUM] is "e.g. 1e-10" (3);
    the tiny number and the validity test are not given by the spec, the
    model takes 1e-16 and "is a number and not infinite". *)
#[global] Instance util : Util :=
  Build_Util 1e-10%float 1e-16%float
    (fun x => Double.is_number x && (Double.fabs x != infinity)%float).

(** A subsector with the given unnormalized share, fixed output and capacity
    limit, and nothing computed yet. *)
Definition make (raw fixedOut limit : double) : t :=
  mk (fun _ => raw) (fun _ => 0%float) (fun _ => fixedOut)
     (fun _ => fixedOut) (fun _ => 0%float) (fun _ => limit)
     (fun _ => false) (fun _ => 0%float) (fun _ => 0%float)
     (fun _ => false) (fun _ => 0%float).

End Subsector.

(** ** Concrete sectors

    Inputs on which the sector code is run below, over the model of the
    subsectors; the period is 1 throughout. *)

Module Inputs.

(** A subsector whose share has been computed: [share] in every period, no
    fixed output, capacity limit [limit]. *)
Definition sharing (share limit : double) : Subsector.t :=
  Subsector.mk (fun _ => share) (fun _ => share) (fun _ => 0%float)
               (fun _ => 0%float) (fun _ => 0%float) (fun _ => limit)
               (fun _ => false) (fun _ => 0%float) (fun _ => 0%float)
               (fun _ => false) (fun _ => 0%float).

(** A market with the same demand in every period. *)
Definition market (demand : double) : Marketplace :=
  Build_Marketplace (fun _ => demand).

(** One subsector, whose technologies yield the unnormalized share 0 (all
    share weights 0); no fixed capacity, no capacity limits, debug checking
    on. *)
Definition idleSector : Sector Subsector.t :=
  mkSector [Subsector.make 0 0 1] false true (fun _ => false)
           (fun _ => 0%float).

(** Two subsectors with fixed outputs 20 and 5 and one without fixed
    output. *)
Definition fixedSector : Sector Subsector.t :=
  mkSector [Subsector.make 1 20 1; Subsector.make 1 5 1; Subsector.make 1 0 1]
           true false (fun _ => false) (fun _ => 0%float).

(** Shares 0.6, 0.3 and 0.1 under the ceilings 0.4, 0.29999999995 and 1: the
    first subsector is over its ceiling by 0.2, the second by 5e-11, less
    than [SMALL_NUM], the third is under its ceiling. *)
Definition limitedSubsectors : list Subsector.t :=
  [sharing 0.6 0.4; sharing 0.3 0.29999999995; sharing 0.1 1].

(** One subsector holding the whole share; no fixed capacity, no debug
    checking. *)
Definition singleSector : Sector Subsector.t :=
  mkSector [sharing 1 1] false false (fun _ => false) (fun _ => 0%float).

(** Shares 0.6, 0.3 and 0.1 under the capacity limits 0.4, 1 and 1 (section
    8, property 7); capacity limits present, debug checking on. *)
Definition cascadeSector : Sector Subsector.t :=
  mkSector [sharing 0.6 0.4; sharing 0.3 1; sharing 0.1 1] false true
           (fun _ => true) (fun _ => 0%float).

(** Shares 0.6 and 0.4 under the capacity limits 0.4 and 0.4: no subsector is
    under its limit. *)
Definition blockedSector : Sector Subsector.t :=
  mkSector [sharing 0.6 0.4; sharing 0.4 0.4] false true
           (fun _ => true) (fun _ => 0%float).

(** A subsector that is all calibrated, with calibrated output [cal]. *)
Definition calibrated (cal : double) : Subsector.t :=
  Subsector.mk (fun _ => 1%float) (fun _ => 1%float) (fun _ => 0%float)
               (fun _ => 0%float) (fun _ => 0%float) (fun _ => 1%float)
               (fun _ => false) (fun _ => 0%float) (fun _ => cal)
               (fun _ => true) (fun _ => cal).

(** Calibrated outputs 60 and 35 against a stored sector output of 100
    (section 8, property 8). *)
Definition calibratedSector : Sector Subsector.t :=
  mkSector [calibrated 60; calibrated 35] false false (fun _ => false)
           (fun _ => 100%float).

(** A subsector with fixed output 10 and one with the variable share 1
    (section 8, property 6). *)
Definition saturatedSector : Sector Subsector.t :=
  mkSector [Subsector.make 0 10 1; sharing 1 1] true false (fun _ => false)
           (fun _ => 0%float).

End Inputs.

(** ** Further routines of the Sector

    The initialisation of a period, the calibration pass and the bookkeeping
    of the sector's dependencies. They call a further part of [Subsector] and
    write to the main log. *)

(** The further member functions of [Subsector] these routines call;
    [MarketInfo] is the type of the sector info that is only handed through.
    [setImpliedFixedInput] returns whether the subsector changed an input. *)
Class SubsectorCalOps (MarketInfo S : Type) : Type := {
  initCalc_sub : Z -> MarketInfo -> S -> S;
  getShareWeight : S -> Z -> double;
  scaleShareWeight : double -> Z -> S -> S;
  inputsAllFixed_sub : S -> Z -> String.string -> bool;
  getCalibrationStatus : S -> Z -> bool;
  adjustForCalibration : double -> double -> double -> bool -> Z -> S -> S;
  setImpliedFixedInput_sub : Z -> String.string -> double -> S -> bool * S
}.

(** What these routines write to the main log. *)
Inductive LogEntry : Type :=
| ShareWeightsSumToZero
    (* "ERROR: in sector ... Shareweights sum to zero." *)
| CalDemandsChangedTwice.
    (* "  WARNING: caldemands for more than one subsector were changed ..." *)

Section Initialisation.

Context {GDP MarketInfo S : Type} `{util : Util} `{ops : SubsectorOps GDP S}
        `{calOps : SubsectorCalOps MarketInfo S}.

(** [anyFixedCapacity = v]. *)
Definition set_anyFixedCapacity (sec : Sector S) (v : bool) : Sector S :=
  mkSector (subsec sec) v (debugChecking sec) (capLimitsPresent sec)
           (output sec).

(** [capLimitsPresent[ period ] = v]. *)
Definition set_capLimitsPresent (sec : Sector S) (period : Z) (v : bool)
    : Sector S :=
  mkSector (subsec sec) (anyFixedCapacity sec) (debugChecking sec)
           (fun p => if Z.eqb p period then v else capLimitsPresent sec p)
           (output sec).

(** The conversion of an [int] to a [double]. *)
Definition double_of_int (n : Z) : double :=
  PrimFloat.of_uint63 (Uint63.of_Z n).

(** [Sector::inputsAllFixed]. *)
Definition inputsAllFixed (sec : Sector S) (period : Z)
    (goodName : String.string) : bool :=
  forallb (fun ss => inputsAllFixed_sub ss period goodName) (subsec sec).

(** The first loop of [normalizeShareWeights]: [shareWeightTotal] and
    [numberNonzeroSubSectors] over the share weights of [period]. *)
Definition shareWeightTotals (period : Z) (l : list S) : double * Z :=
  fold_left
    (fun acc ss =>
       let subsectShareWeight := getShareWeight ss period in
       ((fst acc + subsectShareWeight)%float,
        if (subsectShareWeight > 0)%float then (snd acc + 1)%Z else snd acc))
    l (0%float, 0%Z).

(** [Sector::normalizeShareWeights]; [name] is the name of the sector. *)
Definition normalizeShareWeights (conf : Configuration)
    (name : String.string) (sec : Sector S) (period : Z)
    : list LogEntry * Sector S :=
  if (0 <? period)%Z && CalibrationActive conf then
    if inputsAllFixed sec (period - 1) name
       && (getCalOutput sec (period - 1) > 0)%float
    then
      let shareWeightTotal := fst (shareWeightTotals (period - 1) (subsec sec)) in
      let numberNonzeroSubSectors :=
        snd (shareWeightTotals (period - 1) (subsec sec)) in
      if (shareWeightTotal < getTinyNumber)%float then
        ([ShareWeightsSumToZero], sec)
      else
        ([], set_subsec sec
               (map (scaleShareWeight
                       (double_of_int numberNonzeroSubSectors
                        / shareWeightTotal)%float
                       (period - 1))
                    (subsec sec)))
    else ([], sec)
  else ([], sec).

(** The loop of [isCapacityLimitsInSector], which stops at the first
    subsector whose capacity limit is not 1. *)
Fixpoint anyCapacityLimit (period : Z) (l : list S) (anyCapacityLimits : bool)
    : bool :=
  match l with
  | [] => anyCapacityLimits
  | ss :: rest =>
      if anyCapacityLimits then anyCapacityLimits
      else anyCapacityLimit period rest
             (if negb (getCapacityLimit ss period == 1)%float
              then true else anyCapacityLimits)
  end.

(** [Sector::isCapacityLimitsInSector]. *)
Definition isCapacityLimitsInSector (sec : Sector S) (period : Z) : bool :=
  if (period <? 0)%Z then false
  else anyCapacityLimit period (subsec sec) false.

(** [Sector::initCalc]; [sectorInfo] is the sector info handed to the
    subsectors. *)
Definition initCalc (conf : Configuration) (name : String.string)
    (sectorInfo : MarketInfo) (sec : Sector S) (period : Z)
    : list LogEntry * Sector S :=
  let normalized := normalizeShareWeights conf name sec period in
  let sec1 := snd normalized in
  let sec2 :=
    set_subsec sec1 (map (initCalc_sub period sectorInfo) (subsec sec1)) in
  let sec3 :=
    if (Sector_getFixedOutput sec2 period > 0)%float
    then set_anyFixedCapacity sec2 true else sec2 in
  (fst normalized,
   set_capLimitsPresent sec3 period (isCapacityLimitsInSector sec3 period)).

(** The loop of [setImpliedFixedInput], [inputWasChanged] being the flag so
    far. *)
Fixpoint setImpliedFixedInput_loop (period : Z) (goodName : String.string)
    (requiredOutput : double) (l : list S) (inputWasChanged : bool)
    : list LogEntry * list S :=
  match l with
  | [] => ([], [])
  | ss :: rest =>
      let called := setImpliedFixedInput_sub period goodName requiredOutput ss in
      let warning :=
        if inputWasChanged
        then (if fst called then [CalDemandsChangedTwice] else [])
        else [] in
      let flag := if inputWasChanged then true else fst called in
      let looped :=
        setImpliedFixedInput_loop period goodName requiredOutput rest flag in
      (warning ++ fst looped, snd called :: snd looped)
  end.

(** [Sector::setImpliedFixedInput]. *)
Definition setImpliedFixedInput (sec : Sector S) (period : Z)
    (goodName : String.string) (requiredOutput : double)
    : list LogEntry * Sector S :=
  let looped :=
    setImpliedFixedInput_loop period goodName requiredOutput (subsec sec)
                              false in
  (fst looped, set_subsec sec (snd looped)).

(** The loop of [calibrateSector]: [done] are the subsectors already passed,
    as the loop left them, [todo] the ones to come; [outputsAllFixed] is asked
    of the sector as it stands. *)
Fixpoint calibrateSector_loop (sec : Sector S) (period : Z)
    (mrkdmd totalfixedOutput totalCalOutputs : double) (done todo : list S)
    : list S :=
  match todo with
  | [] => done
  | ss :: rest =>
      let ss' :=
        if getCalibrationStatus ss period
        then adjustForCalibration mrkdmd totalfixedOutput totalCalOutputs
               (outputsAllFixed (set_subsec sec (done ++ ss :: rest)) period)
               period ss
        else ss in
      calibrateSector_loop sec period mrkdmd totalfixedOutput totalCalOutputs
                           (done ++ [ss']) rest
  end.

(** [Sector::calibrateSector]. *)
Definition calibrateSector (mkt : Marketplace) (sec : Sector S) (period : Z)
    : Sector S :=
  let totalfixedOutput := Sector_getFixedOutput sec period in
  let mrkdmd := getDemand mkt period in
  let totalCalOutputs := getCalOutput sec period in
  set_subsec sec
    (calibrateSector_loop sec period mrkdmd totalfixedOutput totalCalOutputs
                          [] (subsec sec)).

(** [initCalc] for the periods of [periods], one after the other. *)
Definition initCalcs (conf : Configuration) (name : String.string)
    (sectorInfo : MarketInfo) (sec : Sector S) (periods : list Z)
    : Sector S :=
  fold_left (fun sec period => snd (initCalc conf name sectorInfo sec period))
            periods sec.

End Initialisation.

(** ** The price of a Sector *)

(** The member functions of [Subsector] the price calculation reads. *)
Class SubsectorPriceOps (S : Type) : Type := {
  getPrice_sub : S -> Z -> double;
  getCO2EmFactor : S -> Z -> double
}.

(** What the sector writes to the marketplace, at its own name and region. *)
Inductive MarketCall : Type :=
| SetMarketInfo (period : Z) (key : String.string) (value : double)
| SetPrice (price : double) (period : Z).

Module MarketInfoKey.

Import String.

(** The key under which the CO2 emissions factor is filed. *)
Definition CO2EmFactor : string := "CO2EmFactor".

End MarketInfoKey.

(** The data members the price calculation writes. *)
Record Prices : Type := mkPrices {
  sectorprice : Z -> double;
  CO2EmFactor : double
}.

Section Price.

Context {GDP S : Type} `{util : Util} `{ops : SubsectorOps GDP S}
        `{priceOps : SubsectorPriceOps S}.

(** [Sector::calcPrice]; [marketExists] is the answer of
    [doesMarketExist( name, regionName, period )]. *)
Definition calcPrice (marketExists : bool) (sec : Sector S) (prices : Prices)
    (period : Z) : list MarketCall * Prices :=
  let price :=
    fold_left (fun price ss =>
                 (price + getShare ss period * getPrice_sub ss period)%float)
              (subsec sec) 0%float in
  let factor :=
    fold_left (fun factor ss =>
                 (factor + getShare ss period * getCO2EmFactor ss period)%float)
              (subsec sec) 0%float in
  (if marketExists then [SetMarketInfo period MarketInfoKey.CO2EmFactor factor] else [],
   mkPrices (fun p => if Z.eqb p period then price else sectorprice prices p)
            factor).

(** [Sector::getPrice]. *)
Definition getPrice (marketExists : bool) (sec : Sector S) (prices : Prices)
    (period : Z) : double * (list MarketCall * Prices) :=
  let calculated := calcPrice marketExists sec prices period in
  (sectorprice (snd calculated) period, calculated).

(** [Sector::calcFinalSupplyPrice]: the sector and the prices afterwards and
    the calls to the marketplace. *)
Definition calcFinalSupplyPrice (mkt : Marketplace) (marketExists : bool)
    (sec : Sector S) (prices : Prices) (gdp : GDP) (period : Z)
    : Outcome (Sector S * Prices * list MarketCall) :=
  bind (calcShare mkt sec period gdp)
    (fun sec' =>
       let calculated := calcPrice marketExists sec' prices period in
       ret (sec', snd calculated,
            fst calculated
            ++ [SetPrice (sectorprice (snd calculated) period) period])).

(** The share-weighted sum of the subsector prices. *)
Definition weightedPrice (period : Z) (l : list S) : double :=
  fold_left (fun price ss =>
               (price + getShare ss period * getPrice_sub ss period)%float)
            l 0%float.

End Price.

(** ** The dependencies of a Sector *)

Module Dependencies.

Import String.

(** [std::find( v.begin(), v.end(), name ) != v.end()]. *)
Definition found (name : string) (v : list string) : bool :=
  existsb (String.eqb name) v.

(** [Sector::addSimul], on [simulList]. *)
Definition addSimul (simulList : list string) (sectorName : string)
    : list string :=
  if found sectorName simulList then simulList
  else simulList ++ [sectorName].

(** The inner loop of [getInputDependencies]: the dependencies of an input
    are added where they are not in [depVector] yet. *)
Definition addIfUnique (depVector tempDepVector : list string) : list string :=
  fold_left
    (fun depVector name =>
       if found name depVector then depVector else depVector ++ [name])
    tempDepVector depVector.

(** The test of the outer loop: the input is not "zTotal", which is not a
    sector name, and not a simul, which is not a dependency. *)
Definition isDependency (simulList : list string) (depSectorName : string)
    : bool :=
  negb (String.eqb depSectorName "zTotal")
  && negb (found depSectorName simulList).

(** The body of the outer loop, for the input [depSectorName]. *)
Definition addDependency (simulList : list string)
    (getSectorDependencies : string -> list string)
    (depVector : list string) (depSectorName : string) : list string :=
  if isDependency simulList depSectorName
  then addIfUnique (depVector ++ [depSectorName])
                   (getSectorDependencies depSectorName)
  else depVector.

(** [Sector::getInputDependencies]: [fuelcons] is the fuel consumption map of
    period 0, [getfuelcons( 0 )], as the list of its entries in the order of
    the iteration; [getSectorDependencies] is the parent region's. *)
Definition getInputDependencies (fuelcons : list (string * double))
    (simulList : list string)
    (getSectorDependencies : string -> list string) : list string :=
  fold_left (addDependency simulList getSectorDependencies)
            (map fst fuelcons) [].

(** How often [x] stands in a list of names. *)
Definition occurrences (x : string) (v : list string) : nat :=
  count_occ string_dec v x.

End Dependencies.

(** ** Facts about the comparisons of doubles *)

Section DoubleFacts.

Lemma SFcompare_antisym (x y : spec_float) :
  SFcompare y x = option_map CompOpp (SFcompare x y).
Proof.
  destruct x as [sx|sx| |sx mx ex], y as [sy|sy| |sy my ey]; simpl;
    try reflexivity;
    try (destruct sx; reflexivity);
    try (destruct sy; reflexivity);
    try (destruct sx, sy; reflexivity).
  rewrite (Z.compare_antisym ex ey).
  destruct sx, sy; simpl; try reflexivity;
    destruct (ex ?= ey)%Z; simpl; try reflexivity;
    rewrite (Pos.compare_cont_antisym mx my Eq); reflexivity.
Qed.

Lemma SFcompare_None (x y : spec_float) :
  SFcompare x y = None -> x = S754_nan \/ y = S754_nan.
Proof.
  destruct x, y; simpl; intro H; try discriminate H; auto.
Qed.

Lemma SFcompare_zero_l (x y : spec_float) :
  SFcompare x (S754_zero false) = Some Eq ->
  SFcompare x y = SFcompare (S754_zero false) y.
Proof.
  destruct x as [sx|sx| |sx mx ex]; simpl; intro H;
    try reflexivity; try discriminate H;
    destruct sx; discriminate H.
Qed.

Lemma SFcompare_zero_r (x y : spec_float) :
  SFcompare x (S754_zero false) = Some Eq ->
  SFcompare y x = SFcompare y (S754_zero false).
Proof.
  intro H. rewrite (SFcompare_antisym x y), (SFcompare_zero_l x y H).
  symmetry. apply SFcompare_antisym.
Qed.

Lemma Prim2SF_zero : Prim2SF 0%float = S754_zero false.
Proof. reflexivity. Qed.

(** [x == 0] makes [x] behave as 0 on either side of [>]. *)
Lemma eq_zero_gt_l (x y : double) :
  (x == 0)%float = true -> (x > y)%float = (0 > y)%float.
Proof.
  unfold Double.eq, Double.gt. rewrite eqb_spec, !ltb_spec, Prim2SF_zero.
  unfold SFeqb, SFltb. intro H.
  rewrite (SFcompare_zero_r (Prim2SF x) (Prim2SF y)); [reflexivity|].
  destruct (SFcompare (Prim2SF x) (S754_zero false)) as [[ | | ]|];
    try discriminate H; reflexivity.
Qed.

Lemma eq_zero_gt_r (x y : double) :
  (x == 0)%float = true -> (y > x)%float = (y > 0)%float.
Proof.
  unfold Double.eq, Double.gt. rewrite eqb_spec, !ltb_spec, Prim2SF_zero.
  unfold SFeqb, SFltb. intro H.
  rewrite (SFcompare_zero_l (Prim2SF x) (Prim2SF y)); [reflexivity|].
  destruct (SFcompare (Prim2SF x) (S754_zero false)) as [[ | | ]|];
    try discriminate H; reflexivity.
Qed.

(** A double that equals 0 is not greater than 0. *)
Lemma eq_zero_not_gt (x : double) :
  (x == 0)%float = true -> (x > 0)%float = false.
Proof. intro H. rewrite (eq_zero_gt_l x 0%float H). reflexivity. Qed.

(** A double greater than 0 differs from 0. *)
Lemma gt_zero_ne (x : double) :
  (x > 0)%float = true -> (x != 0)%float = true.
Proof.
  intro H. unfold Double.ne.
  destruct (PrimFloat.eqb x 0) eqn:E; [|reflexivity].
  rewrite (eq_zero_not_gt x E) in H. discriminate H.
Qed.

Lemma Prim2SF_one :
  Prim2SF 1%float = S754_finite false 4503599627370496 (-52).
Proof. vm_compute. reflexivity. Qed.

(** A double less than 0 differs from 1. *)
Lemma lt_zero_ne_one (x : double) :
  (x < 0)%float = true -> (x != 1)%float = true.
Proof.
  unfold Double.lt, Double.ne. rewrite ltb_spec, eqb_spec.
  unfold SFltb, SFeqb. rewrite Prim2SF_one, Prim2SF_zero.
  destruct (Prim2SF x) as [[]|[]| |[] m e]; cbn [SFcompare negb];
    try discriminate; reflexivity.
Qed.

(** [>] is irreflexive, NaN included. *)
Lemma gt_irrefl (x : double) : (x > x)%float = false.
Proof.
  unfold Double.gt. rewrite ltb_spec. unfold SFltb.
  pose proof (SFcompare_antisym (Prim2SF x) (Prim2SF x)) as H.
  destruct (SFcompare (Prim2SF x) (Prim2SF x)) as [[ | | ]|];
    try reflexivity; discriminate H.
Qed.

(** A double compared with something is a number. *)
Lemma le_is_number_r (x y : double) :
  (x <= y)%float = true -> Double.is_number y = true.
Proof.
  unfold Double.le, Double.is_number. rewrite leb_spec, eqb_spec.
  unfold SFleb, SFeqb.
  destruct (Prim2SF x), (Prim2SF y) as [sy|sy| |sy my ey]; simpl;
    try discriminate; intros _; try reflexivity;
    try (destruct sy; reflexivity);
    destruct sy; rewrite Z.compare_refl, Pos.compare_cont_refl; reflexivity.
Qed.

(** On numbers, [x > y] false means [x <= y]. *)
Lemma not_gt_le (x y : double) :
  Double.is_number x = true -> Double.is_number y = true ->
  (x > y)%float = false -> (x <= y)%float = true.
Proof.
  unfold Double.is_number, Double.gt, Double.le.
  rewrite !eqb_spec, ltb_spec, leb_spec. unfold SFeqb, SFltb, SFleb.
  intros Hx Hy H.
  rewrite (SFcompare_antisym (Prim2SF x) (Prim2SF y)) in H.
  destruct (SFcompare (Prim2SF x) (Prim2SF y)) as [[ | | ]|] eqn:E;
    simpl in H; try reflexivity; try discriminate H.
  destruct (SFcompare_None _ _ E) as [N|N]; rewrite N in *;
    simpl in *; discriminate.
Qed.

Lemma le_refl_number (x : double) :
  Double.is_number x = true -> (x <= x)%float = true.
Proof. intro H. apply not_gt_le; auto using gt_irrefl. Qed.

End DoubleFacts.

(** ** Facts about outcomes *)

Lemma bind_Returns {A B : Type} (c : Outcome A) (k : A -> Outcome B)
    (log : list Event) (a : A) :
  c = Returns log a ->
  bind c k = match k a with
             | Returns log' b => Returns (log ++ log') b
             | Aborts log' => Aborts (log ++ log')
             end.
Proof. intros ->. reflexivity. Qed.

Lemma bind_ret_l {A B : Type} (a : A) (k : A -> Outcome B) :
  bind (ret a) k = k a.
Proof. unfold bind, ret. destruct (k a); reflexivity. Qed.

Lemma bind_ret_r {A : Type} (c : Outcome A) : bind c ret = c.
Proof.
  destruct c as [log a|log]; simpl; [rewrite app_nil_r|]; reflexivity.
Qed.

Lemma bind_tell {B : Type} (e : Event) (k : unit -> Outcome B) :
  logOf (bind (tell e) k) = e :: logOf (k tt)
  /\ valueOf (bind (tell e) k) = valueOf (k tt).
Proof. unfold bind, tell. destruct (k tt); split; reflexivity. Qed.

(** ** The calibration check and the output summation *)

Section CalibrationAndOutput.

Context {GDP S : Type} `{util : Util} `{ops : SubsectorOps GDP S}.

Lemma sumOutput_loop_returns (period : Z) (l : list S) :
  forall (i : nat) (out : double),
  exists log l',
    sumOutput_loop period i l out
    = Returns log
        (l', fold_left (fun o ss => (o + fst (getOutput period ss))%float)
                       l out)
    /\ l' = map (fun ss => snd (getOutput period ss)) l.
Proof.
  induction l as [|ss rest IH]; intros i out; simpl.
  - exists [], []. split; reflexivity.
  - destruct (getOutput period ss) as [temp ss'] eqn:E. simpl.
    destruct (IH (Datatypes.S i) (out + temp)%float) as (log & l' & Hr & Hl).
    rewrite Hr. simpl.
    destruct (isValidNumber temp); simpl;
      eexists; eexists; (split; [reflexivity| rewrite Hl; reflexivity]).
Qed.

(** C7. For a period after the first with calibration active,
    [isAllCalibrated] answers false exactly when the calibrated output is
    positive and either the difference between calibrated plus fixed output
    and the actual output exceeds the accuracy, or its fraction of the
    calibrated output exceeds it in absolute value while all outputs are
    fixed; otherwise, and in period 0 or with calibration off, it answers
    true; it always returns. *)
Theorem isAllCalibrated_false_iff (conf : Configuration) (sec : Sector S)
    (period : Z) (calAccuracy : double) (printWarnings : bool) :
  let calOutputs := getCalOutput sec period in
  let calDiff :=
    (calOutputs + Sector_getFixedOutput sec period
     - Sector_getOutput sec period)%float in
  let answer :=
    valueOf (isAllCalibrated conf sec period calAccuracy printWarnings) in
  ((0 < period)%Z /\ CalibrationActive conf = true ->
     (answer = Some false <->
        (calOutputs > 0)%float = true
        /\ ((calDiff > calAccuracy)%float = true
            \/ ((Double.fabs (calDiff / calOutputs) > calAccuracy)%float = true
                /\ outputsAllFixed sec period = true))))
  /\ ((period <= 0)%Z \/ CalibrationActive conf = false ->
        answer = Some true)
  /\ (answer = Some true \/ answer = Some false).
Proof.
  intros calOutputs calDiff answer. subst answer. unfold isAllCalibrated.
  fold calOutputs. fold calDiff.
  split; [|split].
  - intros [Hperiod Hactive]. apply Z.ltb_lt in Hperiod.
    rewrite Hperiod, Hactive. simpl.
    destruct (calOutputs > 0)%float;
      [|split; [discriminate|intros [Hpos _]; discriminate Hpos]].
    destruct (calDiff > calAccuracy)%float; simpl.
    + split; [intros _; split; [|left]; reflexivity|].
      intros _. destruct printWarnings; reflexivity.
    + destruct (Double.fabs (calDiff / calOutputs) > calAccuracy)%float; simpl.
      * destruct (outputsAllFixed sec period); simpl.
        -- split; [intros _; split; [|right; split]; reflexivity|].
           intros _. destruct printWarnings; reflexivity.
        -- split; [discriminate|].
           intros [_ [Hdiff|[_ Hfixed]]]; discriminate.
      * split; [discriminate|].
        intros [_ [Hdiff|[Hfraction _]]]; discriminate.
  - intros [Hperiod|Hactive].
    + apply Z.ltb_ge in Hperiod. rewrite Hperiod. reflexivity.
    + rewrite Hactive, andb_false_r. reflexivity.
  - destruct ((0 <? period)%Z && CalibrationActive conf); [|left; reflexivity].
    destruct (calOutputs > 0)%float; [|left; reflexivity].
    destruct ((calDiff > calAccuracy)%float
              || (Double.fabs (calDiff / calOutputs) > calAccuracy)%float
                 && outputsAllFixed sec period);
      [right; destruct printWarnings; reflexivity|left; reflexivity].
Qed.

Lemma output_set_output (sec : Sector S) (period : Z) (v : double) :
  output (set_output sec period v) period = v.
Proof. simpl. rewrite Z.eqb_refl. reflexivity. Qed.

(** C10. In every period after the first, and in period 0 when the stored
    output is 0, [updateAndGetOutput] stores the sum of the subsector outputs
    in [output[ period ]] and returns it; in period 0 with a stored output
    other than 0 it returns the stored value and changes nothing. *)
Theorem updateAndGetOutput_recomputes (sec : Sector S) (period : Z) :
  let total := subsectorOutputTotal period (subsec sec) in
  ((0 < period)%Z
   \/ (period = 0%Z /\ (output sec period == 0)%float = true) ->
     exists log sec',
       updateAndGetOutput sec period = Returns log (total, sec')
       /\ output sec' period = total
       /\ subsec sec' = map (fun ss => snd (getOutput period ss)) (subsec sec))
  /\ (period = 0%Z /\ (output sec period == 0)%float = false ->
        updateAndGetOutput sec period = Returns [] (output sec period, sec)).
Proof.
  intro total. unfold updateAndGetOutput. split.
  - intro Hcase.
    assert (Hcond : (0 <? period)%Z || (output sec period == 0)%float = true).
    { destruct Hcase as [Hp|[_ Hz]].
      - apply Z.ltb_lt in Hp. rewrite Hp. reflexivity.
      - rewrite Hz. apply orb_true_r. }
    rewrite Hcond. unfold sumOutput.
    destruct (sumOutput_loop_returns period (subsec sec) 0%nat 0%float)
      as (log & l' & Hr & Hl).
    rewrite Hr. simpl. rewrite Z.eqb_refl.
    exists ((log ++ []) ++ []). eexists. split; [reflexivity|].
    split; [apply output_set_output | exact Hl].
  - intros [Hp Hz]. subst period. rewrite Hz. reflexivity.
Qed.

End CalibrationAndOutput.

(** ** The capacity-limit resolution *)

Section CapacityLimits.

Context {GDP S : Type} `{util : Util} `{ops : SubsectorOps GDP S}.

Lemma capScan_fields (period : Z) (l : list S) :
  forall acc : CapScan,
    let scan := fold_left (capScanStep period) l acc in
    capLimited scan = capLimited acc || existsb (isOverLimit period) l
    /\ sumSharesOverLimit scan
       = fold_left
           (fun over ss =>
              if isOverLimit period ss
              then (over + (getShare ss period - tempCapacityLimit period ss))
                   %float
              else over)
           l (sumSharesOverLimit acc)
    /\ sumSharesNotLimited scan
       = fold_left
           (fun notLimited ss =>
              let notLimited1 :=
                if (getShare ss period < tempCapacityLimit period ss)%float
                then (notLimited + getShare ss period)%float
                else notLimited in
              if (getFixedShare ss period > 0)%float
              then (notLimited1 - getShare ss period)%float else notLimited1)
           l (sumSharesNotLimited acc).
Proof.
  induction l as [|ss rest IH]; intro acc; simpl.
  - rewrite orb_false_r. repeat split; reflexivity.
  - destruct (IH (capScanStep period acc ss)) as (Hflag & Hover & Hnot).
    rewrite Hflag, Hover, Hnot. unfold capScanStep, isOverLimit. simpl.
    repeat split.
    destruct (getShare ss period - tempCapacityLimit period ss
              > getSmallNumber)%float; simpl.
    + rewrite orb_true_r. reflexivity.
    + reflexivity.
Qed.

Lemma capScan_capLimited (period : Z) (fixedSoFar : double) (l : list S) :
  capLimited (capScan period fixedSoFar l) = existsb (isOverLimit period) l.
Proof.
  unfold capScan.
  destruct (capScan_fields period l (mkCapScan false 0 0 fixedSoFar))
    as (Hflag & _). exact Hflag.
Qed.

Lemma capScan_over (period : Z) (fixedSoFar : double) (l : list S) :
  sumSharesOverLimit (capScan period fixedSoFar l) = sharesOverLimit period l.
Proof.
  unfold capScan.
  destruct (capScan_fields period l (mkCapScan false 0 0 fixedSoFar))
    as (_ & Hover & _). exact Hover.
Qed.

Lemma capScan_notLimited (period : Z) (fixedSoFar : double) (l : list S) :
  sumSharesNotLimited (capScan period fixedSoFar l)
  = sharesNotLimited period l.
Proof.
  unfold capScan.
  destruct (capScan_fields period l (mkCapScan false 0 0 fixedSoFar))
    as (_ & _ & Hnot). exact Hnot.
Qed.



Lemma capRedistribute_returns (period : Z) (scan : CapScan) (l : list S) :
  exists log l', capRedistribute period scan l = Returns log l'
                 /\ (capLimited scan = false -> log = [] /\ l' = l).
Proof.
  unfold capRedistribute. destruct (capLimited scan).
  - destruct (sumSharesNotLimited scan > 0)%float.
    + eexists; eexists; split; [reflexivity|discriminate].
    + destruct (sumSharesOverLimit scan > 0)%float; simpl;
        eexists; eexists; (split; [reflexivity|discriminate]).
  - exists [], l. split; [reflexivity|]. intros _. split; reflexivity.
Qed.

(** The outer loop returns after at most [budget] further iterations; when it
    ends with [capLimited] false, no subsector is over its limit. *)
Lemma capLimitLoop_returns (period : Z) (budget : nat) :
  forall st : CapLoop,
    (cl_capLimited st = false ->
     existsb (isOverLimit period) (cl_subsec st) = false) ->
    exists log st',
      capLimitLoop budget period st = Returns log st'
      /\ (cl_iterations st' <= cl_iterations st + budget)%nat
      /\ (cl_capLimited st = false -> st' = st /\ log = [])
      /\ (cl_capLimited st' = false ->
          existsb (isOverLimit period) (cl_subsec st') = false).
Proof.
  induction budget as [|budget IH]; intros st Hinv; simpl.
  - exists [], st. repeat split; auto. lia.
  - destruct (cl_capLimited st) eqn:Hflag.
    + set (scan := capScan period (cl_totalFixedShares st) (cl_subsec st)).
      destruct (capRedistribute_returns period scan (cl_subsec st))
        as (log1 & l1 & Hr & Hkeep).
      rewrite Hr. simpl.
      destruct (IH (mkCapLoop l1 (capLimited scan) (totalFixedShares scan)
                              (Datatypes.S (cl_iterations st))))
        as (log2 & st' & Hloop & Hiter & _ & Hinv').
      { simpl. intro Hno. destruct (Hkeep Hno) as [_ ->].
        unfold scan in Hno. rewrite capScan_capLimited in Hno. exact Hno. }
      rewrite Hloop. exists (log1 ++ log2), st'.
      repeat split; auto; try discriminate. simpl in Hiter. lia.
    + exists [], st. repeat split; auto. lia.
Qed.

Lemma capLimitLoop_stops (period : Z) (budget : nat) (st : CapLoop) :
  cl_capLimited st = false -> capLimitLoop budget period st = Returns [] st.
Proof. intro Hflag. destruct budget; simpl; [|rewrite Hflag]; reflexivity. Qed.

(** C4 (as the code has it). In an iteration of the outer loop in which some
    subsector exceeds its effective ceiling by more than [SMALL_NUM] and the
    sum of the shares not limited is positive, [limitShares] is applied to
    every subsector with the multiplier
    [1 + sumSharesOverLimit / sumSharesNotLimited], where [sumSharesOverLimit]
    adds [share - ceiling] over the subsectors that exceed their ceiling by
    more than [SMALL_NUM], and [sumSharesNotLimited] adds the shares strictly
    under their ceiling and subtracts the share of every subsector with a
    fixed share. *)
Theorem capLimit_iteration_redistributes (period : Z) (budget : nat)
    (st : CapLoop) :
  let scan := capScan period (cl_totalFixedShares st) (cl_subsec st) in
  let multiplier :=
    (1 + sharesOverLimit period (cl_subsec st)
         / sharesNotLimited period (cl_subsec st))%float in
  capLimited scan = existsb (isOverLimit period) (cl_subsec st)
  /\ sumSharesOverLimit scan = sharesOverLimit period (cl_subsec st)
  /\ sumSharesNotLimited scan = sharesNotLimited period (cl_subsec st)
  /\ (cl_capLimited st = true
      /\ existsb (isOverLimit period) (cl_subsec st) = true
      /\ (sharesNotLimited period (cl_subsec st) > 0)%float = true ->
        capLimitLoop (Datatypes.S budget) period st
        = capLimitLoop budget period
            (mkCapLoop (map (limitShares multiplier period) (cl_subsec st))
                       true (totalFixedShares scan)
                       (Datatypes.S (cl_iterations st)))).
Proof.
  intros scan multiplier.
  pose proof (capScan_capLimited period (cl_totalFixedShares st) (cl_subsec st))
    as Hflag.
  pose proof (capScan_over period (cl_totalFixedShares st) (cl_subsec st))
    as Hover.
  pose proof (capScan_notLimited period (cl_totalFixedShares st) (cl_subsec st))
    as Hnot.
  fold scan in Hflag, Hover, Hnot.
  repeat split; try assumption.
  intros (Hloop & Hsome & Hpos). simpl. rewrite Hloop. fold scan.
  unfold capRedistribute. rewrite Hflag, Hsome, Hnot, Hpos, Hover.
  rewrite bind_ret_l. reflexivity.
Qed.

(** C5. [adjSharesCapLimit] always returns; the body of its outer loop runs at
    most [nosubsec] times; and an iteration that finds no subsector over its
    limit is the last one: the loop ends after it with the subsectors as they
    were. *)
Theorem adjSharesCapLimit_terminates (sec : Sector S) (period : Z) :
  (exists log st log' sec',
     capLimitRun sec period = Returns log st
     /\ (cl_iterations st <= nosubsec sec)%nat
     /\ adjSharesCapLimit sec period = Returns log' sec')
  /\ (forall (budget : nat) (st : CapLoop),
        cl_capLimited st = true
        /\ existsb (isOverLimit period) (cl_subsec st) = false ->
        capLimitLoop (Datatypes.S budget) period st
        = Returns []
            (mkCapLoop (cl_subsec st) false
               (totalFixedShares
                  (capScan period (cl_totalFixedShares st) (cl_subsec st)))
               (Datatypes.S (cl_iterations st)))).
Proof.
  split.
  - unfold adjSharesCapLimit, capLimitRun.
    destruct (capLimitLoop_returns period (nosubsec sec)
                (mkCapLoop (subsec sec) true 0%float 0%nat))
      as (log & st & Hrun & Hiter & _).
    { discriminate. }
    rewrite Hrun. simpl in Hiter. exists log, st. simpl.
    destruct (cl_capLimited st); simpl;
      eexists; eexists; (split; [reflexivity|split; [lia|reflexivity]]).
  - intros budget st (Hflag & Hnone). simpl. rewrite Hflag.
    pose proof (capScan_capLimited period (cl_totalFixedShares st)
                                   (cl_subsec st)) as Hscan.
    rewrite Hnone in Hscan.
    unfold capRedistribute. rewrite Hscan, bind_ret_l.
    apply capLimitLoop_stops. reflexivity.
Qed.


End CapacityLimits.

(** ** The fixed-output adjustment *)

Section FixedOutput.

Context {GDP S : Type} `{util : Util} `{ops : SubsectorOps GDP S}.

Lemma fixedOutputTotals_subsec (marketDemand : double) (period : Z)
    (l : list S) :
  forall total variable : double,
    fst (fst (fixedOutputTotals marketDemand period l total variable))
    = map (fixedOutputStep marketDemand period) l.
Proof.
  induction l as [|ss rest IH]; intros total variable; simpl.
  - reflexivity.
  - match goal with
    | |- context [fixedOutputTotals marketDemand period rest ?t ?v] =>
        specialize (IH t v);
        destruct (fixedOutputTotals marketDemand period rest t v)
          as [[rest' total'] variable']
    end.
    simpl in *. rewrite IH. reflexivity.
Qed.

(** The first loop sums the fixed outputs the subsectors have after
    [resetfixedOutput], in input order. *)
Lemma summedFixedOutput_sum (marketDemand : double) (period : Z)
    (sec : Sector S) :
  summedFixedOutput marketDemand period sec
  = fold_left
      (fun total ss =>
         (total + getFixedOutput (resetfixedOutput period ss) period)%float)
      (subsec sec) 0%float.
Proof.
  unfold summedFixedOutput.
  generalize 0%float at 2 as variable. generalize 0%float as total.
  induction (subsec sec) as [|ss rest IH]; intros total variable; simpl.
  - reflexivity.
  - match goal with
    | |- context [fixedOutputTotals marketDemand period rest ?t ?v] =>
        specialize (IH t v);
        destruct (fixedOutputTotals marketDemand period rest t v)
          as [[rest' total'] variable']
    end.
    simpl in *. exact IH.
Qed.

(** The routine, written with the values of its local variables. *)
Lemma adjustForFixedOutput_phases (marketDemand : double) (period : Z)
    (sec : Sector S) :
  let l1 := map (fixedOutputStep marketDemand period) (subsec sec) in
  let summed := summedFixedOutput marketDemand period sec in
  let scaled := scaleDownFixedOutput marketDemand period l1 summed in
  adjustForFixedOutput marketDemand period sec
  = bind (adjustVariableShares marketDemand period (fst scaled) (snd scaled)
            (summedVariableShares marketDemand period sec))
         (fun l3 => ret (set_subsec sec l3)).
Proof.
  unfold adjustForFixedOutput, summedFixedOutput, summedVariableShares.
  pose proof (fixedOutputTotals_subsec marketDemand period (subsec sec)
                                       0%float 0%float) as Hl1.
  destruct (fixedOutputTotals marketDemand period (subsec sec) 0%float 0%float)
    as [[l1 total] variable].
  simpl in *. subst l1.
  destruct (scaleDownFixedOutput marketDemand period
              (map (fixedOutputStep marketDemand period) (subsec sec)) total)
    as [l2 total'].
  reflexivity.
Qed.

(** The last block returns unless its assertion fails, and changes the
    subsectors by [adjShares] only. *)
Lemma adjustVariableShares_returns (marketDemand : double) (period : Z)
    (l : list S) (totalfixedOutput variableShares : double) :
  ((totalfixedOutput > 0)%float = true ->
   (totalfixedOutput > marketDemand)%float = false ->
   (marketDemand != 0)%float = true) ->
  adjustVariableShares marketDemand period l totalfixedOutput variableShares
  = Returns [] l
  \/ exists shareRatio : double,
       adjustVariableShares marketDemand period l totalfixedOutput
                            variableShares
       = Returns []
           (map (adjShares marketDemand shareRatio totalfixedOutput period) l).
Proof.
  intro Hassert. unfold adjustVariableShares.
  destruct (totalfixedOutput > 0)%float; [|left; reflexivity].
  right.
  destruct (totalfixedOutput > marketDemand)%float.
  - rewrite bind_ret_l. eexists. reflexivity.
  - rewrite (Hassert eq_refl eq_refl). simpl. eexists. reflexivity.
Qed.

(** The clamp leaves [totalfixedOutput] not greater than the demand. *)
Lemma scaleDownFixedOutput_total (marketDemand : double) (period : Z)
    (l : list S) (summed : double) :
  (snd (scaleDownFixedOutput marketDemand period l summed) > marketDemand)
  %float = false.
Proof.
  unfold scaleDownFixedOutput.
  destruct (summed > marketDemand)%float eqn:E; simpl.
  - apply gt_irrefl.
  - exact E.
Qed.

(** The assertion of the last block cannot fail: where it stands the total
    is positive and not greater than the demand. *)
Lemma assertion_holds (marketDemand totalfixedOutput : double) :
  (totalfixedOutput > 0)%float = true ->
  (totalfixedOutput > marketDemand)%float = false ->
  (marketDemand != 0)%float = true.
Proof.
  intros Hpos Hle. unfold Double.ne.
  destruct (PrimFloat.eqb marketDemand 0) eqn:E; [|reflexivity].
  rewrite (eq_zero_gt_r marketDemand totalfixedOutput E) in Hle. congruence.
Qed.

(** The routine always returns, with nothing logged; the last block leaves the
    subsectors alone or applies [adjShares], with the clamped total, to every
    one of them. *)
Lemma adjustForFixedOutput_returns (marketDemand : double) (period : Z)
    (sec : Sector S) :
  let l1 := map (fixedOutputStep marketDemand period) (subsec sec) in
  let summed := summedFixedOutput marketDemand period sec in
  let l2 := fst (scaleDownFixedOutput marketDemand period l1 summed) in
  let totalfixedOutput :=
    snd (scaleDownFixedOutput marketDemand period l1 summed) in
  exists l3,
    adjustForFixedOutput marketDemand period sec
    = Returns [] (set_subsec sec l3)
    /\ (l3 = l2
        \/ exists shareRatio : double,
             l3 = map (adjShares marketDemand shareRatio totalfixedOutput
                                 period) l2).
Proof.
  intros l1 summed l2 totalfixedOutput.
  rewrite adjustForFixedOutput_phases. fold l1 summed l2 totalfixedOutput.
  destruct (adjustVariableShares_returns marketDemand period l2
              totalfixedOutput (summedVariableShares marketDemand period sec)
              (assertion_holds marketDemand totalfixedOutput))
    as [Hret|(shareRatio & Hret)]; rewrite Hret; simpl.
  - exists l2. split; [reflexivity|left; reflexivity].
  - eexists. split; [reflexivity|]. right. exists shareRatio. reflexivity.
Qed.

(** C3. For a demand of at least 0 the routine returns, and the total fixed
    output it goes on with, the one handed to [adjShares], is not greater
    than the demand: it is at most the demand whenever the sum of the fixed
    outputs is a number. When the sum exceeds the demand, [scalefixedOutput]
    is applied to every subsector with the factor
    [marketDemand / totalfixedOutput] and the total becomes the demand
    itself. *)
Theorem adjustForFixedOutput_caps_fixed_output (marketDemand : double)
    (period : Z) (sec : Sector S) :
  (0 <= marketDemand)%float = true ->
  let l1 := map (fixedOutputStep marketDemand period) (subsec sec) in
  let summed := summedFixedOutput marketDemand period sec in
  let l2 := fst (scaleDownFixedOutput marketDemand period l1 summed) in
  let totalfixedOutput :=
    snd (scaleDownFixedOutput marketDemand period l1 summed) in
  (exists l3,
     adjustForFixedOutput marketDemand period sec
     = Returns [] (set_subsec sec l3)
     /\ (l3 = l2
         \/ exists shareRatio : double,
              l3 = map (adjShares marketDemand shareRatio totalfixedOutput
                                  period) l2))
  /\ (totalfixedOutput > marketDemand)%float = false
  /\ (Double.is_number summed = true ->
      (totalfixedOutput <= marketDemand)%float = true)
  /\ ((summed > marketDemand)%float = true ->
      l2 = map (scalefixedOutput (marketDemand / summed)%float period) l1
      /\ totalfixedOutput = marketDemand).
Proof.
  intros Hdemand l1 summed l2 totalfixedOutput.
  split; [apply adjustForFixedOutput_returns|].
  split; [apply scaleDownFixedOutput_total|].
  pose proof (le_is_number_r _ _ Hdemand) as Hmd.
  subst l2 totalfixedOutput. unfold scaleDownFixedOutput.
  destruct (summed > marketDemand)%float eqn:E; simpl.
  - split; [intros _; apply le_refl_number; exact Hmd|].
    intros _. split; reflexivity.
  - split; [intro Hnumber; apply not_gt_le; assumption|]. discriminate.
Qed.

(** C2 (as the code has it). With a demand of 0 the routine divides nothing by
    the demand and raises nothing: every subsector gets its fixed output reset
    and its fixed share set to 0; when the summed fixed output is positive
    every fixed output is scaled by [marketDemand / totalfixedOutput];
    [adjShares] is not called, nothing is logged and the routine returns. *)
Theorem adjustForFixedOutput_zero_demand (marketDemand : double) (period : Z)
    (sec : Sector S) :
  (marketDemand == 0)%float = true ->
  let l1 :=
    map (fun ss => setFixedShare period 0%float (resetfixedOutput period ss))
        (subsec sec) in
  let summed := summedFixedOutput marketDemand period sec in
  adjustForFixedOutput marketDemand period sec
  = Returns []
      (set_subsec sec
         (if (summed > 0)%float
          then map (scalefixedOutput (marketDemand / summed)%float period) l1
          else l1)).
Proof.
  intros Hzero l1 summed.
  rewrite adjustForFixedOutput_phases. fold summed.
  assert (Hl1 : map (fixedOutputStep marketDemand period) (subsec sec) = l1).
  { apply map_ext. intro ss. unfold fixedOutputStep, Double.ne.
    unfold Double.eq in Hzero. rewrite Hzero. simpl.
    destruct (getFixedOutput (resetfixedOutput period ss) period == 0)%float;
      reflexivity. }
  rewrite Hl1. unfold scaleDownFixedOutput.
  rewrite (eq_zero_gt_r marketDemand summed Hzero).
  unfold adjustVariableShares.
  destruct (summed > 0)%float eqn:E; simpl.
  - rewrite (eq_zero_not_gt marketDemand Hzero). reflexivity.
  - rewrite E. reflexivity.
Qed.

(** C9 (as the code has it). For a demand greater than 0 the routine returns,
    and for every subsector whose fixed output is not 0 its one call of
    [setFixedShare] with a value other than 0 has the value 1 when
    [fixedOutput / marketDemand] is greater than 1, and that ratio otherwise.
    Afterwards the subsector is only handed to [scalefixedOutput], with the
    factor [marketDemand / totalfixedOutput], when the summed fixed output
    exceeds the demand, and to [adjShares], when the total is greater than 0:
    nothing is assumed of either. *)
Theorem adjustForFixedOutput_sets_fixed_share (marketDemand : double)
    (period : Z) (sec : Sector S) :
  (marketDemand > 0)%float = true ->
  let summed := summedFixedOutput marketDemand period sec in
  let variableShares := summedVariableShares marketDemand period sec in
  let totalfixedOutput :=
    if (summed > marketDemand)%float then marketDemand else summed in
  let shareRatio :=
    if (variableShares == 0)%float then 0%float
    else ((1 - totalfixedOutput / marketDemand) / variableShares)%float in
  let scaled (ss : S) : S :=
    if (summed > marketDemand)%float
    then scalefixedOutput (marketDemand / summed)%float period ss
    else ss in
  let adjusted (ss : S) : S :=
    if (totalfixedOutput > 0)%float
    then adjShares marketDemand shareRatio totalfixedOutput period ss
    else ss in
  exists sec' : Sector S,
    adjustForFixedOutput marketDemand period sec = Returns [] sec'
    /\ forall (i : nat) (ss : S),
         nth_error (subsec sec) i = Some ss ->
         let ss1 := resetfixedOutput period ss in
         let fixedOutput := getFixedOutput ss1 period in
         (fixedOutput == 0)%float = false ->
         nth_error (subsec sec') i
         = Some (adjusted
                   (scaled
                      (setFixedShare period
                         (if (fixedOutput / marketDemand > 1)%float
                          then 1%float
                          else (fixedOutput / marketDemand)%float)
                         (setFixedShare period 0%float ss1)))).
Proof.
  intros Hdemand summed variableShares totalfixedOutput shareRatio scaled
         adjusted.
  pose proof (gt_zero_ne marketDemand Hdemand) as Hne.
  rewrite adjustForFixedOutput_phases.
  fold summed variableShares.
  set (l1 := map (fixedOutputStep marketDemand period) (subsec sec)).
  assert (Hl3 :
            adjustVariableShares marketDemand period
              (fst (scaleDownFixedOutput marketDemand period l1 summed))
              (snd (scaleDownFixedOutput marketDemand period l1 summed))
              variableShares
            = Returns [] (map adjusted (map scaled l1))).
  { unfold scaleDownFixedOutput, adjustVariableShares, adjusted, scaled,
      shareRatio, totalfixedOutput.
    destruct (summed > marketDemand)%float eqn:Eover; cbn [fst snd].
    - rewrite Hdemand, (gt_irrefl marketDemand), Hne. reflexivity.
    - rewrite map_id.
      destruct (summed > 0)%float.
      + rewrite Eover, Hne. reflexivity.
      + rewrite map_id. reflexivity. }
  rewrite Hl3. cbn [bind ret app].
  eexists. split; [reflexivity|].
  intros i ss Hi. cbv zeta. intro Hfixed. cbn [subsec set_subsec].
  unfold l1. rewrite !nth_error_map, Hi. cbn [option_map].
  unfold fixedOutputStep. rewrite Hfixed, Hne. reflexivity.
Qed.

End FixedOutput.

(** ** The share calculation and the supply pass *)

Section SharesAndSupply.

Context {GDP S : Type} `{util : Util} `{ops : SubsectorOps GDP S}.

Lemma adjSharesCapLimit_returns (sec : Sector S) (period : Z) :
  exists log l,
    adjSharesCapLimit sec period = Returns log (set_subsec sec l).
Proof.
  unfold adjSharesCapLimit, capLimitRun.
  destruct (capLimitLoop_returns period (nosubsec sec)
              (mkCapLoop (subsec sec) true 0%float 0%nat))
    as (log & st & Hrun & _).
  { discriminate. }
  rewrite Hrun. simpl.
  destruct (cl_capLimited st); simpl; eexists; eexists; reflexivity.
Qed.

Lemma checkShareSum_loop_checks (period : Z) (l : list S) :
  forall sumshares : double,
    checkShareSum_loop period l sumshares
    = if forallb isValidNumber (map (fun ss => getShare ss period) l)
      then Returns []
             (fold_left (fun acc share => (acc + share)%float)
                        (map (fun ss => getShare ss period) l) sumshares)
      else Aborts [].
Proof.
  induction l as [|ss rest IH]; intro sumshares; simpl.
  - reflexivity.
  - destruct (isValidNumber (getShare ss period)); simpl; [|reflexivity].
    rewrite IH.
    destruct (forallb isValidNumber (map (fun ss0 => getShare ss0 period) rest));
      reflexivity.
Qed.

(** For a subsector number in range [Sector::getFixedShare] is the share the
    loops of [calcShare] work with. *)
Lemma Sector_getFixedShare_in_range (mkt : Marketplace) (sec : Sector S)
    (i : nat) (period : Z) (ss : S) :
  nth_error (subsec sec) i = Some ss ->
  Sector_getFixedShare mkt sec (Z.of_nat i) period
  = ret (fixedShareOf mkt period ss).
Proof.
  intro Hi. unfold Sector_getFixedShare, nosubsec.
  assert (Hlt : (i < length (subsec sec))%nat).
  { apply nth_error_Some. rewrite Hi. discriminate. }
  assert (H0 : (0 <=? Z.of_nat i)%Z = true) by (apply Z.leb_le; lia).
  assert (H1 : (Z.of_nat i <? Z.of_nat (length (subsec sec)))%Z = true)
    by (apply Z.ltb_lt; lia).
  rewrite H0, H1, Nat2Z.id, Hi. reflexivity.
Qed.

(** C1 (as the code has it). [calcShare] does not force the shares to sum to
    1: after the normalisation and the capacity limits it checks the sum when
    debug checking is on. It then stops at the assertion if a share is not a
    valid number, and otherwise returns having reported "Shares do not sum to
    1" exactly when [|sum of shares - 1| > SMALL_NUM]; the shares stay as
    computed. Without debug checking nothing is checked. *)
Theorem calcShare_checks_share_sum (mkt : Marketplace) (sec : Sector S)
    (period : Z) (gdp : GDP) :
  exists log sec',
    (if capLimitsPresent sec period
     then adjSharesCapLimit (calcShare_normalized mkt sec period gdp) period
     else ret (calcShare_normalized mkt sec period gdp))
    = Returns log sec'
    /\ calcShare mkt sec period gdp
       = if debugChecking sec then
           if forallb isValidNumber (shares sec' period) then
             Returns
               (log ++
                if (Double.fabs (sumShares sec' period - 1) > getSmallNumber)
                   %float
                then [SharesNotOne (sumShares sec' period) (shares sec' period)]
                else [])
               sec'
           else Aborts log
         else Returns log sec'.
Proof.
  unfold calcShare.
  set (sec1 := calcShare_normalized mkt sec period gdp).
  assert (Hflags : capLimitsPresent sec1 = capLimitsPresent sec
                   /\ debugChecking sec1 = debugChecking sec).
  { unfold sec1, calcShare_normalized.
    destruct (calcShare_sums mkt (anyFixedCapacity sec) period gdp (subsec sec)
                             0%float 0%float) as [[l1 sum] fixedSum].
    split; reflexivity. }
  destruct Hflags as [Hcap Hdebug]. rewrite Hcap.
  assert (Hsec2 : exists log l,
            (if capLimitsPresent sec period
             then adjSharesCapLimit sec1 period else ret sec1)
            = Returns log (set_subsec sec1 l)).
  { destruct (capLimitsPresent sec period).
    - apply adjSharesCapLimit_returns.
    - exists [], (subsec sec1). destruct sec1; reflexivity. }
  destruct Hsec2 as (log & l & Hsec2). rewrite Hsec2.
  exists log, (set_subsec sec1 l). split; [reflexivity|].
  simpl. rewrite Hdebug. destruct (debugChecking sec); simpl.
  - unfold checkShareSum. rewrite checkShareSum_loop_checks.
    unfold sumShares, shares. simpl.
    destruct (forallb isValidNumber (map (fun ss => getShare ss period) l));
      simpl; [|rewrite app_nil_r; reflexivity].
    destruct (Double.fabs
                (fold_left (fun acc share => (acc + share)%float)
                   (map (fun ss => getShare ss period) l) 0%float - 1)
              > getSmallNumber)%float; simpl; rewrite ?app_nil_r; reflexivity.
  - rewrite app_nil_r. reflexivity.
Qed.

Lemma updateAndGetOutput_returns (sec : Sector S) (period : Z) :
  exists log r, updateAndGetOutput sec period = Returns log r.
Proof.
  unfold updateAndGetOutput, sumOutput.
  destruct ((0 <? period)%Z || (output sec period == 0)%float).
  - destruct (sumOutput_loop_returns period (subsec sec) 0%nat 0%float)
      as (log & l' & Hr & _).
    rewrite Hr. simpl. eexists; eexists; reflexivity.
  - eexists; eexists; reflexivity.
Qed.

(** C8 (as the code has it). On a negative market demand [supply] reports the
    error and goes on with the negative value: it is the demand handed to
    [adjustForFixedOutput], when the sector has fixed capacity, and to
    [setoutput] of every subsector, and the demand of the debug check. With
    debug checking the summed output [mrksupply] is held against the negative
    demand itself: in a period after the first the mismatch is reported
    exactly when [fabs( mrksupply - mrkdmd ) > 0.01], with the negative
    demand in the message; the exemption [mrkdmd != 1] never applies. *)
Theorem supply_negative_demand (mkt : Marketplace) (sec : Sector S)
    (period : Z) (gdp : GDP) :
  (getDemand mkt period < 0)%float = true ->
  let mrkdmd := getDemand mkt period in
  (exists log, logOf (supply mkt sec period gdp) = DemandNegative :: log)
  /\ exists (log1 : list Event) (sec1 : Sector S),
       (if anyFixedCapacity sec
        then adjustForFixedOutput mrkdmd period sec else ret sec)
       = Returns log1 sec1
       /\ let sec2 :=
            set_subsec sec1 (map (setoutput mrkdmd period gdp) (subsec sec1)) in
          (debugChecking sec = false ->
           supply mkt sec period gdp = Returns (DemandNegative :: log1) sec2)
          /\ (debugChecking sec = true ->
              exists log2 r,
                updateAndGetOutput sec2 period = Returns log2 r
                /\ valueOf (supply mkt sec period gdp) = Some (snd r)
                /\ let mrksupply := fst r in
                   supply mkt sec period gdp
                   = Returns
                       (DemandNegative :: log1 ++ log2
                        ++ (if (0 <? period)%Z
                               && (Double.fabs (mrksupply - mrkdmd) > 0.01)%float
                            then [SupplyDemandMismatch
                                    (Double.fabs
                                       (mrksupply * 1.000000001 - mrkdmd)%float)
                                    (mrksupply * 1.000000001)%float mrkdmd]
                            else []))
                       (snd r)).
Proof.
  intros Hneg mrkdmd. subst mrkdmd. unfold supply. cbv zeta.
  rewrite Hneg. cbv beta iota delta [when]. split.
  - match goal with
    | |- context [bind (tell DemandNegative) ?k] =>
        destruct (bind_tell DemandNegative k) as [Hlog _]; rewrite Hlog
    end.
    eexists. reflexivity.
  - assert (Hadjust : exists l,
              (if anyFixedCapacity sec
               then adjustForFixedOutput (getDemand mkt period) period sec
               else ret sec)
              = Returns [] (set_subsec sec l)).
    { destruct (anyFixedCapacity sec).
      - destruct (adjustForFixedOutput_returns (getDemand mkt period) period
                                               sec) as (l3 & Hret & _).
        exists l3. exact Hret.
      - exists (subsec sec). destruct sec; reflexivity. }
    destruct Hadjust as (l & Hadjust).
    exists [], (set_subsec sec l). split; [exact Hadjust|].
    simpl. rewrite Hadjust. cbn [bind]. simpl. split.
    + intros ->. reflexivity.
    + intros ->.
      destruct (updateAndGetOutput_returns
                  (set_subsec (set_subsec sec l)
                     (map (setoutput (getDemand mkt period) period gdp) l))
                  period) as (log2 & r & Hr).
      simpl in Hr. exists log2, r. split; [exact Hr|]. rewrite Hr. simpl.
      rewrite (lt_zero_ne_one (getDemand mkt period) Hneg), andb_true_r.
      destruct ((0 <? period)%Z
                && (Double.fabs (fst r - getDemand mkt period) > 0.01)%float);
        simpl; rewrite ?app_nil_r; split; reflexivity.
Qed.

End SharesAndSupply.

(** ** The sector code on concrete inputs *)

Section ConcreteRuns.

Import Inputs.

(** Section 8, property 6: a fixed output of 10 saturates a demand of 10; the
    fixed share becomes 1 and the variable share 0. *)
Example fixed_output_saturates_demand :
  option_map
    (fun sec => map (fun ss => (getFixedShare ss 1, getShare ss 1)) (subsec sec))
    (valueOf (adjustForFixedOutput 10 1 saturatedSector))
  = Some [(1%float, 1%float); (0%float, 0%float)].
Proof. reflexivity. Qed.

(** Section 8, property 7: the first subsector is capped at 0.4 and its excess
    goes to the other two in the ratio 3 : 1; two iterations, nothing
    reported. *)
Example capacity_limit_cascade :
  logOf (adjSharesCapLimit cascadeSector 1) = []
  /\ option_map (fun sec => shares sec 1)
                (valueOf (adjSharesCapLimit cascadeSector 1))
     = Some [0.40000000000000002%float; 0.44999999999999996%float;
             0.15000000000000002%float]
  /\ option_map cl_iterations (valueOf (capLimitRun cascadeSector 1))
     = Some 2%nat.
Proof. repeat split. Qed.

(** With no subsector under its limit both iterations report the missing
    capacity, the routine reports the unresolved limit, and the shares stay
    as they were. *)
Example capacity_limit_infeasible :
  logOf (adjSharesCapLimit blockedSector 1)
  = [InsufficientCapacity; InsufficientCapacity; CapLimitNotResolved]
  /\ option_map (fun sec => shares sec 1)
                (valueOf (adjSharesCapLimit blockedSector 1))
     = Some [0.6%float; 0.4%float].
Proof. repeat split. Qed.

(** Section 8, property 8: calibrated plus fixed output 95 against an actual
    output of 100 is flagged at the accuracy 0.01; not so in period 0. *)
Example calibration_mismatch_detected :
  isAllCalibrated (Build_Configuration true) calibratedSector 1 0.01 true
  = Returns [CalibrationMismatch 95 (-5) (-5 * 100 / 95)] false
  /\ isAllCalibrated (Build_Configuration true) calibratedSector 0 0.01 true
     = Returns [] true.
Proof. repeat split. Qed.

(** The stored output 100 is kept in period 0 and replaced by the sum 95 of
    the subsector outputs in period 1. *)
Example output_of_base_period_is_kept :
  option_map fst (valueOf (updateAndGetOutput calibratedSector 0))
  = Some 100%float
  /\ option_map fst (valueOf (updateAndGetOutput calibratedSector 1))
     = Some 95%float.
Proof. repeat split. Qed.

(** C1, counterexample. A sector whose one subsector has the unnormalized
    share 0: [calcShare] completes with the share 0, the shares sum to 0, not
    to 1 within [SMALL_NUM], and the routine reports just that. *)
Lemma calcShare_shares_sum_to_zero :
  subsec idleSector <> []
  /\ calcShare (market 10) idleSector 1 tt
     = Returns [SharesNotOne 0 [0%float]]
               (calcShare_normalized (market 10) idleSector 1 tt)
  /\ shares (calcShare_normalized (market 10) idleSector 1 tt) 1 = [0%float]
  /\ sumShares (calcShare_normalized (market 10) idleSector 1 tt) 1 = 0%float
  /\ (Double.fabs
        (sumShares (calcShare_normalized (market 10) idleSector 1 tt) 1 - 1)
      <= getSmallNumber)%float = false.
Proof.
  split; [discriminate|].
  split; [reflexivity|].
  split; [reflexivity|].
  split; reflexivity.
Qed.

(** C2, counterexample. A demand of 0 against fixed outputs that sum to 25:
    the routine returns, with nothing reported and every fixed output scaled
    to 0. *)
Lemma adjustForFixedOutput_zero_demand_is_silent :
  summedFixedOutput 0 1 fixedSector = 25%float
  /\ logOf (adjustForFixedOutput 0 1 fixedSector) = []
  /\ option_map (fun sec => map (fun ss => getFixedOutput ss 1) (subsec sec))
                (valueOf (adjustForFixedOutput 0 1 fixedSector))
     = Some [0%float; 0%float; 0%float].
Proof. repeat split. Qed.

(** C4, counterexample. With a second subsector over its ceiling by less than
    [SMALL_NUM], the excess the code redistributes is 0.2, not the sum of
    [max(0, share - ceiling)], and the third subsector ends with the share
    0.3 where the multiplier of the claim gives 0.30000000005. *)
Lemma capLimit_small_excess_is_not_counted :
  existsb (isOverLimit 1) limitedSubsectors = true
  /\ (sharesNotLimited 1 limitedSubsectors > 0)%float = true
  /\ sumSharesOverLimit (capScan 1 0 limitedSubsectors)
     = 0.19999999999999996%float
  /\ excessOverCeiling 1 limitedSubsectors = 0.20000000004999996%float
  /\ option_map (fun st => map (fun ss => getShare ss 1) (cl_subsec st))
       (valueOf (capLimitLoop 1 1 (mkCapLoop limitedSubsectors true 0 0)))
     = Some [0.40000000000000002%float; 0.29999999994999998%float;
             0.29999999999999999%float]
  /\ map (fun ss => getShare ss 1)
       (map (limitShares
               (1 + excessOverCeiling 1 limitedSubsectors
                    / sharesNotLimited 1 limitedSubsectors)%float 1)
            limitedSubsectors)
     = [0.40000000000000002%float; 0.29999999994999998%float;
        0.30000000004999999%float]
  /\ (0.29999999999999999 == 0.30000000004999999)%float = false.
Proof. repeat split. Qed.

(** C8, counterexample. With the demand -5 the subsector is told to produce
    -5, where a demand of 0 gives the output 0. *)
Lemma supply_hands_on_negative_demand :
  logOf (supply (market (-5)) singleSector 1 tt) = [DemandNegative]
  /\ option_map
       (fun sec => map (fun ss => fst (getOutput 1 ss)) (subsec sec))
       (valueOf (supply (market (-5)) singleSector 1 tt))
     = Some [(-5)%float]
  /\ option_map
       (fun sec => map (fun ss => fst (getOutput 1 ss)) (subsec sec))
       (valueOf (supply (market 0) singleSector 1 tt))
     = Some [0%float].
Proof. repeat split. Qed.

(** C8 on a run with debug checking: the summed output, 0, is held against
    the demand -5 itself, and the mismatch of 5 is reported. *)
Example supply_cross_checks_negative_demand :
  logOf (supply (market (-5)) idleSector 1 tt)
  = [DemandNegative; SupplyDemandMismatch 5 0 (-5)].
Proof. reflexivity. Qed.

(** C9, counterexample. Fixed outputs 20 and 5 against a demand of 10: the
    first loop sets the fixed share of the first subsector to 1, and the
    subsector ends with the fixed share 1, which is neither 20 / 10 nor the
    share 8 / 10 of its fixed output after the scaling. *)
Lemma fixed_share_is_capped_at_one :
  (10 > 0)%float = true
  /\ map (fun ss => getFixedShare ss 1)
       (map (fixedOutputStep 10 1) (subsec fixedSector))
     = [1%float; 0.5%float; 0%float]
  /\ option_map (fun sec => map (fun ss => getFixedShare ss 1) (subsec sec))
       (valueOf (adjustForFixedOutput 10 1 fixedSector))
     = Some [1%float; 0.5%float; 0%float]
  /\ option_map (fun sec => map (fun ss => getFixedOutput ss 1) (subsec sec))
       (valueOf (adjustForFixedOutput 10 1 fixedSector))
     = Some [8%float; 2%float; 0%float]
  /\ (20 / 10)%float = 2%float
  /\ (1 == 20 / 10)%float = false
  /\ (1 == 8 / 10)%float = false.
Proof. repeat split. Qed.

(** C2, witness: the demand 0 against the fixed outputs 20 and 5. *)
Lemma adjustForFixedOutput_zero_demand_witness :
  (0 == 0)%float = true
  /\ adjustForFixedOutput 0 1 fixedSector
     = Returns []
         (set_subsec fixedSector
            (if (summedFixedOutput 0 1 fixedSector > 0)%float
             then map (scalefixedOutput
                         (0 / summedFixedOutput 0 1 fixedSector)%float 1)
                      (map (fun ss => setFixedShare 1 0%float
                                        (resetfixedOutput 1 ss))
                           (subsec fixedSector))
             else map (fun ss => setFixedShare 1 0%float
                                   (resetfixedOutput 1 ss))
                      (subsec fixedSector))).
Proof.
  split; [reflexivity|].
  exact (adjustForFixedOutput_zero_demand 0 1 fixedSector eq_refl).
Defined.

(** C3, witness: the demand 10 against the fixed outputs 20 and 5. *)
Lemma adjustForFixedOutput_caps_fixed_output_witness :
  (0 <= 10)%float = true
  /\ summedFixedOutput 10 1 fixedSector = 25%float
  /\ (snd (scaleDownFixedOutput 10 1
             (map (fixedOutputStep 10 1) (subsec fixedSector))
             (summedFixedOutput 10 1 fixedSector))
      <= 10)%float = true.
Proof.
  split; [reflexivity|]. split; [reflexivity|].
  exact (proj1 (proj2 (proj2 (adjustForFixedOutput_caps_fixed_output
                                10 1 fixedSector eq_refl)))
               eq_refl).
Defined.

(** C8, witness: the demand -5. *)
Lemma supply_negative_demand_witness :
  (getDemand (market (-5)) 1 < 0)%float = true
  /\ exists log,
       logOf (supply (market (-5)) singleSector 1 tt) = DemandNegative :: log.
Proof.
  split; [reflexivity|].
  exact (proj1 (supply_negative_demand (market (-5)) singleSector 1 tt
                                       eq_refl)).
Defined.

(** C9, witness: the fixed outputs 20 and 5 against the demand 10; the first
    ratio is greater than 1 and the summed fixed output exceeds the demand. *)
Lemma adjustForFixedOutput_sets_fixed_share_witness :
  (10 > 0)%float = true
  /\ (summedFixedOutput 10 1 fixedSector > 10)%float = true
  /\ exists sec' : Sector Subsector.t,
       adjustForFixedOutput 10 1 fixedSector = Returns [] sec'
       /\ forall (i : nat) (ss : Subsector.t),
            nth_error (subsec fixedSector) i = Some ss ->
            (getFixedOutput (resetfixedOutput 1 ss) 1 == 0)%float = false ->
            nth_error (subsec sec') i
            = Some (adjShares 10 0 10 1
                      (scalefixedOutput (10 / 25) 1
                         (setFixedShare 1
                            (if (getFixedOutput (resetfixedOutput 1 ss) 1 / 10
                                 > 1)%float
                             then 1%float
                             else (getFixedOutput (resetfixedOutput 1 ss) 1
                                   / 10)%float)
                            (setFixedShare 1 0%float
                               (resetfixedOutput 1 ss))))).
Proof.
  split; [reflexivity|]. split; [reflexivity|].
  exact (adjustForFixedOutput_sets_fixed_share 10 1 fixedSector eq_refl).
Defined.

End ConcreteRuns.

(** ** What the routines keep, report and never do *)

Section Frames.

Context {GDP S : Type} `{util : Util} `{ops : SubsectorOps GDP S}.

Lemma sameMembers_set_subsec (sec : Sector S) (l : list S) :
  sameMembers sec (set_subsec sec l).
Proof. repeat split. Qed.

Lemma capRedistribute_cases (period : Z) (scan : CapScan) (l : list S) :
  exists l',
    length l' = length l
    /\ (capRedistribute period scan l = Returns [] l'
        \/ capRedistribute period scan l = Returns [InsufficientCapacity] l').
Proof.
  unfold capRedistribute. destruct (capLimited scan).
  - destruct (sumSharesNotLimited scan > 0)%float.
    + eexists. split; [|left; reflexivity]. apply length_map.
    + destruct (sumSharesOverLimit scan > 0)%float; simpl;
        exists l; (split; [reflexivity|]); [right|left]; reflexivity.
  - exists l. split; [reflexivity|left; reflexivity].
Qed.

(** The outer loop writes nothing but "Insufficient capacity", at most once
    per iteration, and keeps the number of subsectors. *)
Lemma capLimitLoop_log (period : Z) (budget : nat) :
  forall st : CapLoop,
    exists (k : nat) (st' : CapLoop),
      capLimitLoop budget period st
      = Returns (repeat InsufficientCapacity k) st'
      /\ (k <= budget)%nat
      /\ length (cl_subsec st') = length (cl_subsec st).
Proof.
  induction budget as [|budget IH]; intro st; simpl.
  - exists 0%nat, st. repeat split; auto.
  - destruct (cl_capLimited st).
    + set (scan := capScan period (cl_totalFixedShares st) (cl_subsec st)).
      destruct (capRedistribute_cases period scan (cl_subsec st))
        as (l' & Hlen & [Hr|Hr]); rewrite Hr;
        destruct (IH (mkCapLoop l' (capLimited scan) (totalFixedShares scan)
                                (Datatypes.S (cl_iterations st))))
          as (k & st' & Hloop & Hk & Hlen'); simpl; rewrite Hloop;
        simpl in Hlen'.
      * exists k, st'. repeat split; [lia|congruence].
      * exists (Datatypes.S k), st'. repeat split; [lia|congruence].
    + exists 0%nat, st. repeat split; auto. lia.
Qed.

(** X1. [adjustForFixedOutput] returns for every demand, zero, negative and
    NaN included, and writes nothing: its assertion [marketDemand != 0]
    cannot fail. It changes the subsectors only, and not their number. *)
Theorem adjustForFixedOutput_never_aborts (marketDemand : double)
    (period : Z) (sec : Sector S) :
  exists sec',
    adjustForFixedOutput marketDemand period sec = Returns [] sec'
    /\ length (subsec sec') = length (subsec sec)
    /\ sameMembers sec sec'.
Proof.
  destruct (adjustForFixedOutput_returns marketDemand period sec)
    as (l3 & Hret & Hl3).
  exists (set_subsec sec l3). split; [exact Hret|].
  split; [|apply sameMembers_set_subsec]. simpl.
  assert (Hl2 : length (fst (scaleDownFixedOutput marketDemand period
                               (map (fixedOutputStep marketDemand period)
                                    (subsec sec))
                               (summedFixedOutput marketDemand period sec)))
                = length (subsec sec)).
  { unfold scaleDownFixedOutput.
    destruct (summedFixedOutput marketDemand period sec > marketDemand)%float;
      simpl; rewrite ?length_map; reflexivity. }
  destruct Hl3 as [->|(shareRatio & ->)]; rewrite ?length_map; exact Hl2.
Qed.

Lemma updateAndGetOutput_frame (sec : Sector S) (period : Z) :
  exists log v sec',
    updateAndGetOutput sec period = Returns log (v, sec')
    /\ length (subsec sec') = length (subsec sec)
    /\ anyFixedCapacity sec' = anyFixedCapacity sec
    /\ debugChecking sec' = debugChecking sec
    /\ capLimitsPresent sec' = capLimitsPresent sec
    /\ ((0 < period)%Z ->
        output sec' period = subsectorOutputTotal period (subsec sec)).
Proof.
  unfold updateAndGetOutput, sumOutput.
  destruct (sumOutput_loop_returns period (subsec sec) 0%nat 0%float)
    as (log & l' & Hr & Hl').
  destruct (0 <? period)%Z eqn:Hperiod; simpl.
  - rewrite Hr. simpl. rewrite Z.eqb_refl.
    eexists; eexists; eexists. split; [reflexivity|]. simpl.
    rewrite Hl', length_map, Z.eqb_refl. repeat split.
  - destruct (output sec period == 0)%float.
    + rewrite Hr. simpl. rewrite Z.eqb_refl.
      eexists; eexists; eexists. split; [reflexivity|]. simpl.
      rewrite Hl', length_map. repeat split.
      intro Hp. apply Z.ltb_lt in Hp. congruence.
    + eexists; eexists; eexists. split; [reflexivity|]. repeat split.
      intro Hp. apply Z.ltb_lt in Hp. congruence.
Qed.

(** X2. [supply] returns for every demand. Without debug checking it leaves
    [output] as it is; with debug checking, in a period after the first, it
    overwrites [output[ period ]] with the sum of the outputs of the
    subsectors. The number of subsectors and the flags stay. *)
Theorem supply_always_returns (mkt : Marketplace) (sec : Sector S)
    (period : Z) (gdp : GDP) :
  exists log sec' l1,
    supply mkt sec period gdp = Returns log sec'
    /\ (if anyFixedCapacity sec
        then adjustForFixedOutput (getDemand mkt period) period sec
        else ret sec) = Returns [] (set_subsec sec l1)
    /\ length (subsec sec') = length (subsec sec)
    /\ anyFixedCapacity sec' = anyFixedCapacity sec
    /\ debugChecking sec' = debugChecking sec
    /\ capLimitsPresent sec' = capLimitsPresent sec
    /\ (debugChecking sec = false -> output sec' = output sec)
    /\ (debugChecking sec = true /\ (0 < period)%Z ->
        output sec' period
        = subsectorOutputTotal period
            (map (setoutput (getDemand mkt period) period gdp) l1)).
Proof.
  assert (Hadjust : exists l1,
            (if anyFixedCapacity sec
             then adjustForFixedOutput (getDemand mkt period) period sec
             else ret sec)
            = Returns [] (set_subsec sec l1)
            /\ length l1 = length (subsec sec)).
  { destruct (anyFixedCapacity sec).
    - destruct (adjustForFixedOutput_returns (getDemand mkt period) period sec)
        as (l3 & Hret & Hl3).
      exists l3. split; [exact Hret|].
      assert (Hl2 : length (fst (scaleDownFixedOutput (getDemand mkt period)
                                   period
                                   (map (fixedOutputStep (getDemand mkt period)
                                                         period)
                                        (subsec sec))
                                   (summedFixedOutput (getDemand mkt period)
                                                      period sec)))
                    = length (subsec sec)).
      { unfold scaleDownFixedOutput.
        destruct (_ > _)%float; simpl; rewrite ?length_map; reflexivity. }
      destruct Hl3 as [->|(shareRatio & ->)]; rewrite ?length_map; exact Hl2.
    - exists (subsec sec). split; [destruct sec; reflexivity|reflexivity]. }
  destruct Hadjust as (l1 & Hadjust & Hlen).
  set (sec2 := set_subsec (set_subsec sec l1)
                 (map (setoutput (getDemand mkt period) period gdp) l1)).
  assert (Hsupply :
            supply mkt sec period gdp
            = bind (when (getDemand mkt period < 0)%float (tell DemandNegative))
                (fun _ =>
                   if debugChecking sec then
                     bind (updateAndGetOutput sec2 period)
                       (fun r =>
                          bind (when ((0 <? period)%Z
                                      && (Double.fabs
                                            (fst r - getDemand mkt period)
                                          > 0.01)%float
                                      && (getDemand mkt period != 1)%float)
                                  (tell (SupplyDemandMismatch
                                           (Double.fabs
                                              (fst r * 1.000000001
                                               - getDemand mkt period)%float)
                                           (fst r * 1.000000001)%float
                                           (getDemand mkt period))))
                            (fun _ => ret (snd r)))
                   else ret sec2)).
  { unfold supply. cbv zeta. rewrite Hadjust.
    destruct (when (getDemand mkt period < 0)%float (tell DemandNegative))
      as [log0 []|log0]; [|reflexivity].
    rewrite !(bind_Returns _ _ log0 tt eq_refl). cbv beta.
    change (Returns [] (set_subsec sec l1)) with (ret (set_subsec sec l1)).
    rewrite bind_ret_l. reflexivity. }
  rewrite Hsupply. clear Hsupply.
  assert (Hlen2 : length (subsec sec2) = length (subsec sec))
    by (simpl; rewrite length_map; exact Hlen).
  destruct (debugChecking sec) eqn:Hdebug.
  - destruct (updateAndGetOutput_frame sec2 period)
      as (log2 & v & sec3 & Hr & Hlen3 & Hfixed & Hdbg & Hcap & Hout).
    rewrite Hr. cbn [bind fst snd]. simpl in Hfixed, Hdbg, Hcap.
    destruct (getDemand mkt period < 0)%float;
      destruct ((0 <? period)%Z
                && (Double.fabs (v - getDemand mkt period) > 0.01)%float
                && (getDemand mkt period != 1)%float); simpl;
      eexists; eexists; exists l1;
      (split; [reflexivity|]); (split; [exact Hadjust|]);
      (split; [congruence|]); (split; [exact Hfixed|]);
      (split; [congruence|]); (split; [exact Hcap|]);
      (split; [discriminate|]); intros [_ Hp]; exact (Hout Hp).
  - destruct (getDemand mkt period < 0)%float; simpl;
      eexists; eexists; exists l1;
      (split; [reflexivity|]); (split; [exact Hadjust|]);
      (split; [exact Hlen2|]);
      repeat split; try exact Hdebug; intros [Hd _]; discriminate Hd.
Qed.

Lemma adjSharesCapLimit_shape (sec : Sector S) (period : Z) :
  exists (k : nat) (st : CapLoop),
    (k <= nosubsec sec)%nat
    /\ length (cl_subsec st) = length (subsec sec)
    /\ adjSharesCapLimit sec period
       = Returns
           (repeat InsufficientCapacity k
            ++ if cl_capLimited st then [CapLimitNotResolved] else [])
           (set_subsec sec (cl_subsec st)).
Proof.
  unfold adjSharesCapLimit, capLimitRun.
  destruct (capLimitLoop_log period (nosubsec sec)
              (mkCapLoop (subsec sec) true 0%float 0%nat))
    as (k & st & Hrun & Hk & Hlen).
  rewrite Hrun. exists k, st. split; [exact Hk|]. split; [exact Hlen|].
  simpl. destruct (cl_capLimited st); reflexivity.
Qed.

(** X3. [adjSharesCapLimit] writes "Insufficient capacity" at most once per
    subsector and, after these, "Capacity limit not resolved" at most once,
    and nothing else; it keeps the number of subsectors and every other
    member of the sector. *)
Theorem adjSharesCapLimit_messages (sec : Sector S) (period : Z) :
  exists (k : nat) (unresolved : bool) (sec' : Sector S),
    adjSharesCapLimit sec period
    = Returns
        (repeat InsufficientCapacity k
         ++ if unresolved then [CapLimitNotResolved] else [])
        sec'
    /\ (k <= nosubsec sec)%nat
    /\ length (subsec sec') = length (subsec sec)
    /\ sameMembers sec sec'.
Proof.
  destruct (adjSharesCapLimit_shape sec period) as (k & st & Hk & Hlen & Hret).
  exists k, (cl_capLimited st), (set_subsec sec (cl_subsec st)).
  split; [exact Hret|]. split; [exact Hk|]. split; [exact Hlen|].
  apply sameMembers_set_subsec.
Qed.

(** X4. When no subsector is over its limit, [adjSharesCapLimit] leaves the
    sector as it is. It then writes nothing, unless the sector has no
    subsector at all: the loop is not entered, its flag keeps its initial
    value and "Capacity limit not resolved" is written. *)
Theorem adjSharesCapLimit_nothing_over_limit (sec : Sector S) (period : Z) :
  existsb (isOverLimit period) (subsec sec) = false ->
  adjSharesCapLimit sec period
  = Returns (match subsec sec with
             | [] => [CapLimitNotResolved]
             | _ :: _ => []
             end)
            sec.
Proof.
  intro Hnone. unfold adjSharesCapLimit, capLimitRun, nosubsec.
  destruct sec as [l fixed debug limits out]. simpl in *.
  destruct l as [|ss rest]; [reflexivity|].
  cbn [length capLimitLoop cl_capLimited cl_subsec cl_totalFixedShares
       cl_iterations].
  pose proof (capScan_capLimited period 0%float (ss :: rest)) as Hscan.
  rewrite Hnone in Hscan.
  unfold capRedistribute. rewrite Hscan, bind_ret_l.
  rewrite capLimitLoop_stops by reflexivity. reflexivity.
Qed.

Lemma sumOutput_loop_log (period : Z) (l : list S) :
  forall (i : nat) (out : double),
    sumOutput_loop period i l out
    = Returns (invalidOutputs period i l)
        (map (fun ss => snd (getOutput period ss)) l,
         fold_left (fun o ss => (o + fst (getOutput period ss))%float) l out).
Proof.
  induction l as [|ss rest IH]; intros i out; simpl.
  - reflexivity.
  - destruct (getOutput period ss) as [temp ss'] eqn:E. simpl.
    rewrite IH. destruct (isValidNumber temp); simpl;
      rewrite ?app_nil_r; reflexivity.
Qed.

(** X5. [sumOutput] writes one message for every subsector whose output is
    not a valid number, in input order, and adds that output to the total
    all the same: [output[ period ]] becomes the sum of all the outputs. *)
Theorem sumOutput_reports_invalid_outputs (sec : Sector S) (period : Z) :
  sumOutput sec period
  = Returns (invalidOutputs period 0 (subsec sec))
      (set_output
         (set_subsec sec (map (fun ss => snd (getOutput period ss))
                              (subsec sec)))
         period (subsectorOutputTotal period (subsec sec)))
  /\ length (invalidOutputs period 0 (subsec sec))
     = length (filter (fun ss => negb (isValidNumber (fst (getOutput period ss))))
                      (subsec sec)).
Proof.
  split.
  - unfold sumOutput. rewrite sumOutput_loop_log. simpl.
    rewrite app_nil_r. reflexivity.
  - generalize 0%nat as i.
    induction (subsec sec) as [|ss rest IH]; intro i; simpl; [reflexivity|].
    rewrite length_app, IH.
    destruct (isValidNumber (fst (getOutput period ss))); reflexivity.
Qed.

(** X6. [isAllCalibrated] writes its warning exactly when it answers false
    and [printWarnings] is set: one entry with the calibrated plus fixed
    output, the difference and the difference in per cent. *)
Theorem isAllCalibrated_warns_iff (conf : Configuration) (sec : Sector S)
    (period : Z) (calAccuracy : double) (printWarnings : bool) :
  let calOutputs := getCalOutput sec period in
  let totalFixed := (calOutputs + Sector_getFixedOutput sec period)%float in
  let calDiff := (totalFixed - Sector_getOutput sec period)%float in
  exists answer : bool,
    isAllCalibrated conf sec period calAccuracy printWarnings
    = Returns (if printWarnings && negb answer
               then [CalibrationMismatch totalFixed calDiff
                       (calDiff * 100 / calOutputs)%float]
               else [])
              answer.
Proof.
  intros calOutputs totalFixed calDiff. unfold isAllCalibrated.
  fold calOutputs. fold totalFixed. fold calDiff.
  destruct ((0 <? period)%Z && CalibrationActive conf);
    [|exists true; rewrite andb_false_r; reflexivity].
  destruct (calOutputs > 0)%float;
    [|exists true; rewrite andb_false_r; reflexivity].
  destruct ((calDiff > calAccuracy)%float
            || (Double.fabs (calDiff / calOutputs) > calAccuracy)%float
               && outputsAllFixed sec period).
  - exists false. destruct printWarnings; reflexivity.
  - exists true. rewrite andb_false_r. reflexivity.
Qed.

Lemma calcShare_sums_subsec (mkt : Marketplace) (anyFixed : bool)
    (period : Z) (gdp : GDP) (l : list S) :
  forall sum fixedSum : double,
    fst (fst (calcShare_sums mkt anyFixed period gdp l sum fixedSum))
    = map (fun ss => setCapLimitStatus false period (calcShare_sub period gdp ss))
          l.
Proof.
  induction l as [|ss rest IH]; intros sum fixedSum; simpl.
  - reflexivity.
  - match goal with
    | |- context [calcShare_sums mkt anyFixed period gdp rest ?a ?b] =>
        specialize (IH a b);
        destruct (calcShare_sums mkt anyFixed period gdp rest a b)
          as [[rest' sum'] fixedSum']
    end.
    simpl in *. rewrite IH. reflexivity.
Qed.

Lemma calcShare_normalized_frame (mkt : Marketplace) (sec : Sector S)
    (period : Z) (gdp : GDP) :
  exists l, calcShare_normalized mkt sec period gdp = set_subsec sec l
            /\ length l = length (subsec sec).
Proof.
  unfold calcShare_normalized.
  pose proof (calcShare_sums_subsec mkt (anyFixedCapacity sec) period gdp
                (subsec sec) 0%float 0%float) as Hl1.
  destruct (calcShare_sums mkt (anyFixedCapacity sec) period gdp (subsec sec)
                           0%float 0%float) as [[l1 sum] fixedSum].
  simpl in Hl1. eexists. split; [reflexivity|].
  rewrite length_map, Hl1, length_map. reflexivity.
Qed.

(** The share calculation, with what its result keeps of the sector. *)
Lemma calcShare_checks_share_sum_aux (mkt : Marketplace) (sec : Sector S)
    (period : Z) (gdp : GDP) :
  exists log sec',
    length (subsec sec') = length (subsec sec)
    /\ sameMembers sec sec'
    /\ calcShare mkt sec period gdp
       = if debugChecking sec then
           if forallb isValidNumber (shares sec' period) then
             Returns
               (log ++
                if (Double.fabs (sumShares sec' period - 1) > getSmallNumber)
                   %float
                then [SharesNotOne (sumShares sec' period) (shares sec' period)]
                else [])
               sec'
           else Aborts log
         else Returns log sec'.
Proof.
  destruct (calcShare_normalized_frame mkt sec period gdp)
    as (l1 & Hnorm & Hlen1).
  assert (Hcap : exists log l2,
            (if capLimitsPresent sec period
             then adjSharesCapLimit (set_subsec sec l1) period
             else ret (set_subsec sec l1))
            = Returns log (set_subsec sec l2)
            /\ length l2 = length (subsec sec)).
  { destruct (capLimitsPresent sec period).
    - destruct (adjSharesCapLimit_shape (set_subsec sec l1) period)
        as (k & st & _ & Hlen & Hret).
      rewrite Hret. eexists; eexists. split; [reflexivity|].
      simpl in Hlen. congruence.
    - exists [], l1. split; [reflexivity|exact Hlen1]. }
  destruct Hcap as (log & l2 & Hcap & Hlen2).
  exists log, (set_subsec sec l2).
  split; [exact Hlen2|]. split; [apply sameMembers_set_subsec|].
  unfold calcShare. rewrite Hnorm.
  change (capLimitsPresent (set_subsec sec l1) period)
    with (capLimitsPresent sec period).
  rewrite Hcap. cbn [bind].
  change (debugChecking (set_subsec sec l2)) with (debugChecking sec).
  destruct (debugChecking sec); simpl.
  - unfold checkShareSum. rewrite checkShareSum_loop_checks.
    unfold sumShares, shares. simpl.
    destruct (forallb isValidNumber (map (fun ss => getShare ss period) l2));
      simpl; [|rewrite app_nil_r; reflexivity].
    destruct (Double.fabs
                (fold_left (fun acc share => (acc + share)%float)
                   (map (fun ss => getShare ss period) l2) 0%float - 1)
              > getSmallNumber)%float; simpl; rewrite ?app_nil_r; reflexivity.
  - rewrite app_nil_r. reflexivity.
Qed.

(** X7. [calcShare] changes the subsectors only, and not their number: when
    it returns, the flags, the capacity-limit flags and the outputs of the
    sector are as before; it can stop only at the assertion of the debug
    check. *)
Theorem calcShare_keeps_the_sector (mkt : Marketplace) (sec : Sector S)
    (period : Z) (gdp : GDP) :
  exists sec',
    length (subsec sec') = length (subsec sec)
    /\ sameMembers sec sec'
    /\ (valueOf (calcShare mkt sec period gdp) = Some sec'
        \/ (debugChecking sec = true
            /\ valueOf (calcShare mkt sec period gdp) = None)).
Proof.
  destruct (calcShare_checks_share_sum_aux mkt sec period gdp)
    as (log & sec' & Hlen & Hsame & Hcalc).
  exists sec'. split; [exact Hlen|]. split; [exact Hsame|].
  rewrite Hcalc. destruct (debugChecking sec); [|left; reflexivity].
  destruct (forallb isValidNumber (shares sec' period));
    [left; reflexivity|right; split; reflexivity].
Qed.

Lemma calcShare_sums_without_fixed (mkt : Marketplace) (period : Z)
    (gdp : GDP) (l : list S) :
  (0 < getTinyNumber)%float = true ->
  forall sum fixedSum : double,
    calcShare_sums mkt false period gdp l sum fixedSum
    = (map (fun ss => setCapLimitStatus false period
                        (calcShare_sub period gdp ss)) l,
       fold_left (fun sum ss =>
                    (sum + getShare (calcShare_sub period gdp ss) period)%float)
                 l sum,
       fixedSum).
Proof.
  intro Htiny. induction l as [|ss rest IH]; intros sum fixedSum; simpl.
  - reflexivity.
  - unfold Double.lt in *. rewrite Htiny, IH. reflexivity.
Qed.

(** X8. In a sector without fixed capacity whose subsectors have no fixed
    output, the two loops of [calcShare] come down to [calcShare],
    [setCapLimitStatus( false )] and [normShare] on every subsector, with one
    argument of [normShare] for all: the plain sum of the shares the
    subsectors computed (over 1 - 0). No share is left out of the sum as
    fixed, and nothing of [Sector::getFixedShare], which is where these loops
    read the market demand, enters. The tiny number is taken to be
    positive. *)
Theorem calcShare_without_fixed_capacity (mkt : Marketplace) (sec : Sector S)
    (period : Z) (gdp : GDP) :
  anyFixedCapacity sec = false ->
  (0 < getTinyNumber)%float = true ->
  forallb (fun ss =>
             (getFixedOutput
                (setCapLimitStatus false period (calcShare_sub period gdp ss))
                period == 0)%float)
          (subsec sec) = true ->
  let sum :=
    fold_left (fun sum ss =>
                 (sum + getShare (calcShare_sub period gdp ss) period)%float)
              (subsec sec) 0%float in
  calcShare_normalized mkt sec period gdp
  = set_subsec sec
      (map (fun ss =>
              normShare (sum / 1)%float period
                (setCapLimitStatus false period (calcShare_sub period gdp ss)))
           (subsec sec)).
Proof.
  intros Hfixed Htiny Hnone sum. unfold calcShare_normalized.
  rewrite Hfixed, (calcShare_sums_without_fixed mkt period gdp _ Htiny).
  fold sum. f_equal. rewrite map_map. apply map_ext_in.
  intros ss Hin. unfold calcShare_normalize.
  rewrite forallb_forall in Hnone. rewrite (Hnone ss Hin). reflexivity.
Qed.

End Frames.

(** ** The initialisation of a period and the calibration pass *)

Section InitialisationFacts.

Context {GDP MarketInfo S : Type} `{util : Util} `{ops : SubsectorOps GDP S}
        `{calOps : SubsectorCalOps MarketInfo S}.

(** X9. [Sector::getFixedShare] checks the subsector number: below 0 or from
    [nosubsec] on it reports the number and returns 0; in range it reports
    nothing and returns the fixed share of that subsector, taken from the
    market demand when the saved share and the demand are both positive. *)
Theorem Sector_getFixedShare_checks_bounds (mkt : Marketplace)
    (sec : Sector S) (subsectorNum period : Z) :
  ((subsectorNum < 0)%Z \/ (Z.of_nat (nosubsec sec) <= subsectorNum)%Z ->
   Sector_getFixedShare mkt sec subsectorNum period
   = Returns [IllegalSubsector subsectorNum] 0%float)
  /\ ((0 <= subsectorNum < Z.of_nat (nosubsec sec))%Z ->
      exists ss,
        nth_error (subsec sec) (Z.to_nat subsectorNum) = Some ss
        /\ Sector_getFixedShare mkt sec subsectorNum period
           = Returns []
               (if (getFixedShare ss period > 0)%float
                   && (getDemand mkt period > 0)%float
                then (getFixedOutput ss period / getDemand mkt period)%float
                else getFixedShare ss period)).
Proof.
  unfold Sector_getFixedShare. split.
  - intro Hout.
    assert (Htest : (0 <=? subsectorNum)%Z
                    && (subsectorNum <? Z.of_nat (nosubsec sec))%Z = false).
    { apply andb_false_iff. destruct Hout as [Hneg|Hbig].
      - left. apply Z.leb_gt. exact Hneg.
      - right. apply Z.ltb_ge. exact Hbig. }
    rewrite Htest. reflexivity.
  - intros [Hlow Hhigh].
    assert (Htest : (0 <=? subsectorNum)%Z
                    && (subsectorNum <? Z.of_nat (nosubsec sec))%Z = true).
    { apply andb_true_iff. split; [apply Z.leb_le|apply Z.ltb_lt]; assumption. }
    rewrite Htest.
    destruct (nth_error (subsec sec) (Z.to_nat subsectorNum)) as [ss|] eqn:E.
    + exists ss. split; [reflexivity|]. unfold fixedShareOf, ret.
      destruct (getFixedShare ss period > 0)%float;
        destruct (getDemand mkt period > 0)%float; reflexivity.
    + apply nth_error_None in E. unfold nosubsec in Hhigh. lia.
Qed.

Lemma shareWeightTotals_count (period : Z) (l : list S) :
  forall acc : double * Z,
    snd (fold_left
           (fun acc ss =>
              ((fst acc + getShareWeight ss period)%float,
               if (getShareWeight ss period > 0)%float
               then (snd acc + 1)%Z else snd acc))
           l acc)
    = (snd acc
       + Z.of_nat
           (length (filter (fun ss => (getShareWeight ss period > 0)%float) l)))
      %Z.
Proof.
  unfold double.
  induction l as [|ss rest IH]; intro acc; simpl.
  - lia.
  - rewrite IH. cbn [fst snd].
    destruct (getShareWeight ss period > 0)%float; cbn [length];
      rewrite ?Nat2Z.inj_succ; lia.
Qed.

(** X10. [normalizeShareWeights] leaves the sector as it is in period 0 and
    with calibration off, and writes its error only when it refuses to
    rescale. When it rescales, every subsector gets [scaleShareWeight] for
    the period before with the same factor: the number of subsectors with a
    positive share weight, which is at most [nosubsec], over a total that is
    not below the tiny number. Nothing but the subsectors changes. *)
Theorem normalizeShareWeights_rescales (conf : Configuration)
    (name : String.string) (sec : Sector S) (period : Z) :
  let result := normalizeShareWeights conf name sec period in
  let total := fst (shareWeightTotals (period - 1) (subsec sec)) in
  let positive :=
    filter (fun ss => (getShareWeight ss (period - 1) > 0)%float) (subsec sec) in
  ((period <= 0)%Z \/ CalibrationActive conf = false -> result = ([], sec))
  /\ (result = ([], sec)
      \/ (result = ([ShareWeightsSumToZero], sec)
          /\ (total < getTinyNumber)%float = true)
      \/ (result
          = ([], set_subsec sec
                   (map (scaleShareWeight
                           (double_of_int (Z.of_nat (length positive)) / total)
                           %float (period - 1))
                        (subsec sec)))
          /\ (total < getTinyNumber)%float = false
          /\ (length positive <= nosubsec sec)%nat)).
Proof.
  intros result total positive. subst result.
  unfold normalizeShareWeights. split.
  - intros [Hperiod|Hactive].
    + apply Z.ltb_ge in Hperiod. rewrite Hperiod. reflexivity.
    + rewrite Hactive, andb_false_r. reflexivity.
  - destruct ((0 <? period)%Z && CalibrationActive conf); [|left; reflexivity].
    destruct (inputsAllFixed sec (period - 1) name
              && (getCalOutput sec (period - 1) > 0)%float);
      [|left; reflexivity].
    fold total. destruct (total < getTinyNumber)%float eqn:Htotal.
    + right. left. split; reflexivity.
    + right. right. split; [|split; [reflexivity|apply filter_length_le]].
      unfold shareWeightTotals. rewrite shareWeightTotals_count. reflexivity.
Qed.

Lemma anyCapacityLimit_existsb (period : Z) (l : list S) :
  forall anyCapacityLimits : bool,
    anyCapacityLimit period l anyCapacityLimits
    = anyCapacityLimits
      || existsb (fun ss => negb (getCapacityLimit ss period == 1)%float) l.
Proof.
  induction l as [|ss rest IH]; intro flag; simpl.
  - rewrite orb_false_r. reflexivity.
  - destruct flag; [reflexivity|]. rewrite IH. simpl.
    destruct (getCapacityLimit ss period == 1)%float; reflexivity.
Qed.

Lemma normalizeShareWeights_frame (conf : Configuration)
    (name : String.string) (sec : Sector S) (period : Z) :
  exists l,
    snd (normalizeShareWeights conf name sec period) = set_subsec sec l
    /\ length l = length (subsec sec).
Proof.
  unfold normalizeShareWeights.
  assert (Hsame : exists l, sec = set_subsec sec l
                            /\ length l = length (subsec sec))
    by (exists (subsec sec); destruct sec; split; reflexivity).
  destruct ((0 <? period)%Z && CalibrationActive conf); [|exact Hsame].
  destruct (inputsAllFixed sec (period - 1) name
            && (getCalOutput sec (period - 1) > 0)%float); [|exact Hsame].
  destruct (_ < getTinyNumber)%float; [exact Hsame|].
  eexists. split; [reflexivity|]. apply length_map.
Qed.

(** X11. [initCalc] sets [anyFixedCapacity] when the fixed output of the
    period is positive and never clears it; it sets the capacity-limit flag
    of its own period, to whether the period is at least 0 and some
    subsector has a capacity limit other than 1, and leaves the flags of the
    other periods, the debug flag, the outputs and the number of subsectors
    as they are. *)
Theorem initCalc_flags (conf : Configuration) (name : String.string)
    (sectorInfo : MarketInfo) (sec : Sector S) (period : Z) :
  let sec' := snd (initCalc conf name sectorInfo sec period) in
  anyFixedCapacity sec'
  = anyFixedCapacity sec || (Sector_getFixedOutput sec' period > 0)%float
  /\ capLimitsPresent sec' period
     = (0 <=? period)%Z
       && existsb (fun ss => negb (getCapacityLimit ss period == 1)%float)
                  (subsec sec')
  /\ (forall p, p <> period -> capLimitsPresent sec' p = capLimitsPresent sec p)
  /\ debugChecking sec' = debugChecking sec
  /\ output sec' = output sec
  /\ length (subsec sec') = length (subsec sec).
Proof.
  intro sec'. subst sec'. unfold initCalc. cbv zeta.
  destruct (normalizeShareWeights_frame conf name sec period)
    as (l & Hnorm & Hlen).
  rewrite Hnorm. simpl.
  set (l' := map (initCalc_sub period sectorInfo) l).
  assert (Hfixed : Sector_getFixedOutput (set_subsec (set_subsec sec l) l')
                     period
                   = fold_left (fun total ss =>
                                  (total + getFixedOutput ss period)%float)
                               l' 0%float) by reflexivity.
  destruct (Sector_getFixedOutput (set_subsec (set_subsec sec l) l') period
            > 0)%float eqn:Hpos; simpl.
  - rewrite Z.eqb_refl. unfold isCapacityLimitsInSector. simpl.
    rewrite anyCapacityLimit_existsb. simpl.
    unfold Sector_getFixedOutput in *. simpl in *. rewrite Hpos.
    rewrite orb_true_r.
    repeat split.
    + rewrite Z.leb_antisym. destruct (period <? 0)%Z; reflexivity.
    + intros p Hp. apply Z.eqb_neq in Hp. rewrite Hp. reflexivity.
    + unfold l'. rewrite length_map. exact Hlen.
  - rewrite Z.eqb_refl. unfold isCapacityLimitsInSector. simpl.
    rewrite anyCapacityLimit_existsb. simpl.
    unfold Sector_getFixedOutput in *. simpl in *. rewrite Hpos.
    rewrite orb_false_r.
    repeat split.
    + rewrite Z.leb_antisym. destruct (period <? 0)%Z; reflexivity.
    + intros p Hp. apply Z.eqb_neq in Hp. rewrite Hp. reflexivity.
    + unfold l'. rewrite length_map. exact Hlen.
Qed.

(** X12. Once [anyFixedCapacity] is set it stays set: whatever periods
    [initCalc] is called for afterwards, and whatever the fixed outputs in
    them, the flag is still set. *)
Theorem anyFixedCapacity_is_never_cleared (conf : Configuration)
    (name : String.string) (sectorInfo : MarketInfo) (sec : Sector S)
    (periods : list Z) :
  anyFixedCapacity
    (initCalcs conf name sectorInfo (set_anyFixedCapacity sec true) periods)
  = true.
Proof.
  unfold initCalcs.
  assert (Hkeep : forall (l : list Z) (s : Sector S),
            anyFixedCapacity s = true ->
            anyFixedCapacity
              (fold_left (fun sec period =>
                            snd (initCalc conf name sectorInfo sec period))
                         l s) = true).
  { induction l as [|period rest IH]; intros s Hs; simpl; [exact Hs|].
    apply IH.
    destruct (normalizeShareWeights_frame conf name s period)
      as (l0 & Hnorm & _).
    unfold initCalc. cbv zeta. rewrite Hnorm.
    destruct (Sector_getFixedOutput _ period > 0)%float; simpl;
      [reflexivity|exact Hs]. }
  apply Hkeep. reflexivity.
Qed.

Lemma setImpliedFixedInput_loop_log (period : Z) (goodName : String.string)
    (requiredOutput : double) (l : list S) :
  forall inputWasChanged : bool,
    let changed :=
      filter (fun ss => fst (setImpliedFixedInput_sub period goodName
                               requiredOutput ss)) l in
    let looped :=
      setImpliedFixedInput_loop period goodName requiredOutput l
                                inputWasChanged in
    fst looped
    = repeat CalDemandsChangedTwice
        (if inputWasChanged then length changed else pred (length changed))
    /\ snd looped
       = map (fun ss => snd (setImpliedFixedInput_sub period goodName
                               requiredOutput ss)) l.
Proof.
  induction l as [|ss rest IH]; intro flag; cbv zeta.
  - simpl. destruct flag; split; reflexivity.
  - cbn [setImpliedFixedInput_loop filter map fst snd].
    destruct (setImpliedFixedInput_sub period goodName requiredOutput ss)
      as [changed ss'] eqn:E. cbn [fst snd].
    destruct flag, changed;
      match goal with
      | |- context [setImpliedFixedInput_loop period goodName requiredOutput
                      rest ?f] =>
          destruct (IH f) as [Hlog Hsub]; rewrite Hlog, Hsub
      end; split; reflexivity.
Qed.

(** X13. [setImpliedFixedInput] asks every subsector, whether or not an
    earlier one has changed its input already, and writes its warning once
    for every subsector that reports a change after the first one that did:
    one warning less than there are subsectors reporting a change. *)
Theorem setImpliedFixedInput_warnings (sec : Sector S) (period : Z)
    (goodName : String.string) (requiredOutput : double) :
  let changed :=
    filter (fun ss => fst (setImpliedFixedInput_sub period goodName
                             requiredOutput ss)) (subsec sec) in
  setImpliedFixedInput sec period goodName requiredOutput
  = (repeat CalDemandsChangedTwice (pred (length changed)),
     set_subsec sec
       (map (fun ss => snd (setImpliedFixedInput_sub period goodName
                              requiredOutput ss)) (subsec sec))).
Proof.
  intro changed. unfold setImpliedFixedInput.
  destruct (setImpliedFixedInput_loop_log period goodName requiredOutput
              (subsec sec) false) as [Hlog Hsub].
  rewrite Hlog, Hsub. reflexivity.
Qed.

Lemma calibrateSector_loop_keeps (sec : Sector S) (period : Z)
    (mrkdmd totalfixedOutput totalCalOutputs : double) (todo : list S) :
  forall done : list S,
    exists done' : list S,
      calibrateSector_loop sec period mrkdmd totalfixedOutput totalCalOutputs
                           done todo
      = done ++ done'
      /\ Forall2
           (fun ss ss' =>
              if getCalibrationStatus ss period
              then exists allFixed : bool,
                     ss' = adjustForCalibration mrkdmd totalfixedOutput
                             totalCalOutputs allFixed period ss
              else ss' = ss)
           todo done'.
Proof.
  induction todo as [|ss rest IH]; intro done; simpl.
  - exists []. split; [rewrite app_nil_r; reflexivity|constructor].
  - match goal with
    | |- context [calibrateSector_loop _ _ _ _ _ (done ++ [?x]) rest] =>
        destruct (IH (done ++ [x])) as (done' & Hloop & Hall);
        exists (x :: done')
    end.
    split; [rewrite Hloop, <- app_assoc; reflexivity|].
    constructor; [|exact Hall].
    destruct (getCalibrationStatus ss period); [eexists|]; reflexivity.
Qed.

(** X14. [calibrateSector] leaves every subsector without calibration status
    as it is and keeps the number and the order of the subsectors; a
    subsector with calibration status is adjusted with the market demand,
    the total fixed output and the total calibrated output the sector had
    before the pass. *)
Theorem calibrateSector_touches_calibrated_only (mkt : Marketplace)
    (sec : Sector S) (period : Z) :
  sameMembers sec (calibrateSector mkt sec period)
  /\ Forall2
       (fun ss ss' =>
          if getCalibrationStatus ss period
          then exists allFixed : bool,
                 ss' = adjustForCalibration (getDemand mkt period)
                         (Sector_getFixedOutput sec period)
                         (getCalOutput sec period) allFixed period ss
          else ss' = ss)
       (subsec sec) (subsec (calibrateSector mkt sec period)).
Proof.
  split; [repeat split|].
  unfold calibrateSector. cbv zeta. simpl.
  destruct (calibrateSector_loop_keeps sec period (getDemand mkt period)
              (Sector_getFixedOutput sec period) (getCalOutput sec period)
              (subsec sec) []) as (done' & Hloop & Hall).
  rewrite Hloop. exact Hall.
Qed.

End InitialisationFacts.

(** ** The dependencies of a Sector: what the lists hold *)

Module DependenciesFacts.

Import String.
Import Dependencies.

Lemma found_In (name : string) (v : list string) :
  found name v = true <-> In name v.
Proof.
  unfold found. rewrite existsb_exists. split.
  - intros (x & Hin & Heq). apply String.eqb_eq in Heq. subst x. exact Hin.
  - intro Hin. exists name. split; [exact Hin|apply String.eqb_refl].
Qed.

Lemma found_false (name : string) (v : list string) :
  found name v = false <-> ~ In name v.
Proof.
  rewrite <- found_In. destruct (found name v); split; congruence.
Qed.

Lemma addSimul_In (simulList : list string) (sectorName x : string) :
  In x (addSimul simulList sectorName) <-> In x simulList \/ x = sectorName.
Proof.
  unfold addSimul. destruct (found sectorName simulList) eqn:E.
  - apply found_In in E. split; [auto|]. intros [H| ->]; assumption.
  - rewrite in_app_iff. simpl. split.
    + intros [H|[H|[]]]; auto.
    + intros [H|H]; auto.
Qed.

Lemma addSimul_NoDup (simulList : list string) (sectorName : string) :
  NoDup simulList -> NoDup (addSimul simulList sectorName).
Proof.
  intro Hnodup. unfold addSimul.
  destruct (found sectorName simulList) eqn:E; [exact Hnodup|].
  apply found_false in E.
  apply NoDup_app; [exact Hnodup|repeat constructor; intros []|].
  intros x Hx [Heq|[]]. subst x. contradiction.
Qed.

(** X15. [addSimul] appends a name that is not in the list and does nothing
    for one that is: afterwards the name is in the list, the earlier entries
    are where they were, a second call with the same name changes nothing,
    and a list without repetitions stays one. *)
Theorem addSimul_adds_once (simulList : list string) (sectorName : string) :
  In sectorName (addSimul simulList sectorName)
  /\ (exists tail, addSimul simulList sectorName = simulList ++ tail)
  /\ addSimul (addSimul simulList sectorName) sectorName
     = addSimul simulList sectorName
  /\ (In sectorName simulList -> addSimul simulList sectorName = simulList)
  /\ (NoDup simulList -> NoDup (addSimul simulList sectorName)).
Proof.
  split; [apply addSimul_In; right; reflexivity|].
  split.
  { unfold addSimul. destruct (found sectorName simulList).
    - exists []. rewrite app_nil_r. reflexivity.
    - eexists. reflexivity. }
  split.
  { assert (Hin : found sectorName (addSimul simulList sectorName) = true)
      by (apply found_In, addSimul_In; right; reflexivity).
    unfold addSimul at 1. rewrite Hin. reflexivity. }
  split.
  - intro Hin. apply found_In in Hin. unfold addSimul. rewrite Hin.
    reflexivity.
  - apply addSimul_NoDup.
Qed.

(** X16. A simul list built by [addSimul] alone, from the empty list, never
    holds a name twice, and holds exactly the names it was called with. *)
Theorem simulList_has_no_repetition (sectorNames : list string) :
  NoDup (fold_left addSimul sectorNames [])
  /\ forall x, In x (fold_left addSimul sectorNames []) <-> In x sectorNames.
Proof.
  assert (Hgen : forall (names simulList : list string),
            NoDup simulList ->
            NoDup (fold_left addSimul names simulList)
            /\ forall x, In x (fold_left addSimul names simulList)
                         <-> In x simulList \/ In x names).
  { induction names as [|name rest IH]; intros simulList Hnodup; simpl.
    - split; [exact Hnodup|]. intro x. split; [auto|]. intros [H|[]]. exact H.
    - destruct (IH (addSimul simulList name) (addSimul_NoDup _ _ Hnodup))
        as [Hnd Hin].
      split; [exact Hnd|]. intro x. rewrite Hin, addSimul_In.
      split; [intros [[H|H]|H]|intros [H|[H|H]]]; auto. }
  destruct (Hgen sectorNames [] (NoDup_nil _)) as [Hnd Hin].
  split; [exact Hnd|]. intro x. rewrite Hin. split; [intros [[]|H]|]; auto.
Qed.

Lemma addIfUnique_In (tempDepVector : list string) :
  forall (depVector : list string) (x : string),
    In x (addIfUnique depVector tempDepVector)
    <-> In x depVector \/ In x tempDepVector.
Proof.
  unfold addIfUnique.
  induction tempDepVector as [|name rest IH]; intros depVector x; simpl.
  - split; [auto|]. intros [H|[]]. exact H.
  - rewrite IH. destruct (found name depVector) eqn:E.
    + apply found_In in E. split; [intros [H|H]; auto|].
      intros [H|[H|H]]; auto. subst x. auto.
    + rewrite in_app_iff. simpl.
      split; [intros [[H|[H|[]]]|H]|intros [H|[H|H]]]; auto.
Qed.

Lemma addDependency_In (simulList : list string)
    (getSectorDependencies : string -> list string)
    (depVector : list string) (d x : string) :
  In x (addDependency simulList getSectorDependencies depVector d)
  <-> In x depVector
      \/ (isDependency simulList d = true
          /\ (x = d \/ In x (getSectorDependencies d))).
Proof.
  unfold addDependency. destruct (isDependency simulList d).
  - rewrite addIfUnique_In, in_app_iff. simpl.
    split.
    + intros [[H|[H|[]]]|H]; auto.
    + intros [H|[_ [H|H]]]; auto.
  - split; [auto|]. intros [H|[H _]]; [exact H|discriminate H].
Qed.

(** X17. [getInputDependencies] returns exactly the inputs of the fuel
    consumption map that are neither "zTotal" nor a simul, and the sectors
    the parent region lists as dependencies of such an input. An input that
    is a simul is in the result only if some other input depends on it. *)
Theorem getInputDependencies_members (fuelcons : list (string * double))
    (simulList : list string)
    (getSectorDependencies : string -> list string) (x : string) :
  In x (getInputDependencies fuelcons simulList getSectorDependencies)
  <-> exists d,
        In d (map fst fuelcons)
        /\ d <> "zTotal"%string
        /\ ~ In d simulList
        /\ (x = d \/ In x (getSectorDependencies d)).
Proof.
  unfold getInputDependencies.
  assert (Hgen : forall (inputs depVector : list string),
            In x (fold_left (addDependency simulList getSectorDependencies)
                            inputs depVector)
            <-> In x depVector
                \/ exists d,
                     In d inputs
                     /\ isDependency simulList d = true
                     /\ (x = d \/ In x (getSectorDependencies d))).
  { induction inputs as [|d rest IH]; intro depVector; simpl.
    - split; [auto|]. intros [H|(d & [] & _)]. exact H.
    - rewrite IH, addDependency_In. split.
      + intros [[H|(Hd & Hx)]|(d' & Hin & Hd & Hx)]; auto.
        * right. exists d. auto.
        * right. exists d'. auto.
      + intros [H|(d' & [Heq|Hin] & Hd & Hx)]; auto.
        * subst d'. auto.
        * right. exists d'. auto. }
  rewrite Hgen. split.
  - intros [[]|(d & Hin & Hd & Hx)]. exists d.
    unfold isDependency in Hd. apply andb_true_iff in Hd.
    destruct Hd as [Hz Hs]. apply negb_true_iff in Hz, Hs.
    apply String.eqb_neq in Hz. apply found_false in Hs. auto.
  - intros (d & Hin & Hz & Hs & Hx). right. exists d.
    split; [exact Hin|]. split; [|exact Hx].
    unfold isDependency. apply andb_true_iff.
    split; apply negb_true_iff;
      [apply String.eqb_neq; exact Hz|apply found_false; exact Hs].
Qed.

Lemma occurrences_app (x : string) (v w : list string) :
  occurrences x (v ++ w) = (occurrences x v + occurrences x w)%nat.
Proof. apply count_occ_app. Qed.

Lemma occurrences_single (x name : string) :
  occurrences x [name] = if string_dec name x then 1%nat else 0%nat.
Proof. unfold occurrences. simpl. destruct (string_dec name x); reflexivity. Qed.

Lemma occurrences_found (x : string) (v : list string) :
  found x v = false -> occurrences x v = 0%nat.
Proof. intro H. apply count_occ_not_In, found_false. exact H. Qed.

Lemma occurrences_In (x : string) (v : list string) :
  In x v -> (1 <= occurrences x v)%nat.
Proof. intro H. apply (count_occ_In string_dec) in H. unfold occurrences. lia. Qed.

Lemma addIfUnique_occurrences (x : string) (tempDepVector : list string) :
  forall depVector : list string,
    (occurrences x depVector
     <= occurrences x (addIfUnique depVector tempDepVector))%nat
    /\ (occurrences x (addIfUnique depVector tempDepVector)
        <= Nat.max 1 (occurrences x depVector))%nat.
Proof.
  unfold addIfUnique.
  induction tempDepVector as [|name rest IH]; intro depVector;
    cbn [fold_left].
  - lia.
  - destruct (found name depVector) eqn:E; [apply IH|].
    destruct (IH (depVector ++ [name])) as [Hlow Hhigh].
    rewrite occurrences_app, occurrences_single in Hlow, Hhigh.
    destruct (string_dec name x) as [->|Hne].
    + rewrite (occurrences_found x depVector E) in *. lia.
    + lia.
Qed.

Lemma addDependency_occurrences (simulList : list string)
    (getSectorDependencies : string -> list string)
    (depVector : list string) (d x : string) :
  (occurrences x depVector
   <= occurrences x (addDependency simulList getSectorDependencies
                                   depVector d))%nat
  /\ (isDependency simulList d = true -> d <> x ->
      (occurrences x (addDependency simulList getSectorDependencies
                                    depVector d)
       <= Nat.max 1 (occurrences x depVector))%nat)
  /\ (isDependency simulList d = false ->
      addDependency simulList getSectorDependencies depVector d = depVector)
  /\ (isDependency simulList d = true ->
      (occurrences x (addDependency simulList getSectorDependencies
                                    depVector d)
       <= Datatypes.S (occurrences x depVector))%nat
      /\ (occurrences d depVector
          < occurrences d (addDependency simulList getSectorDependencies
                                         depVector d))%nat).
Proof.
  unfold addDependency. destruct (isDependency simulList d).
  - destruct (addIfUnique_occurrences x (getSectorDependencies d)
                (depVector ++ [d])) as [Hlow Hhigh].
    destruct (addIfUnique_occurrences d (getSectorDependencies d)
                (depVector ++ [d])) as [Hlowd _].
    rewrite occurrences_app, occurrences_single in Hlow, Hhigh, Hlowd.
    destruct (string_dec d d) as [_|Hne]; [|contradiction].
    split; [lia|]. split.
    + intros _ Hne. destruct (string_dec d x); [contradiction|lia].
    + split; [discriminate|]. intros _.
      destruct (string_dec d x); split; lia.
  - split; [lia|]. split; [discriminate|]. split; [reflexivity|discriminate].
Qed.

Lemma dependencies_occurrences_grow (simulList : list string)
    (getSectorDependencies : string -> list string) (x : string)
    (inputs : list string) :
  forall depVector : list string,
    (occurrences x depVector
     <= occurrences x (fold_left (addDependency simulList getSectorDependencies)
                                 inputs depVector))%nat.
Proof.
  induction inputs as [|d rest IH]; intro depVector; cbn [fold_left]; [lia|].
  specialize (IH (addDependency simulList getSectorDependencies depVector d)).
  destruct (addDependency_occurrences simulList getSectorDependencies
              depVector d x) as [Hlow _].
  lia.
Qed.

Lemma dependencies_occurrences_other (simulList : list string)
    (getSectorDependencies : string -> list string) (x : string)
    (inputs : list string) :
  (forall d, In d inputs -> isDependency simulList d = true -> d <> x) ->
  forall depVector : list string,
    (occurrences x (fold_left (addDependency simulList getSectorDependencies)
                              inputs depVector)
     <= Nat.max 1 (occurrences x depVector))%nat.
Proof.
  induction inputs as [|d rest IH]; intros Hother depVector; cbn [fold_left];
    [lia|].
  assert (Hrest : forall d', In d' rest ->
                             isDependency simulList d' = true -> d' <> x)
    by (intros d' Hin; apply Hother; right; exact Hin).
  specialize (IH Hrest
                (addDependency simulList getSectorDependencies depVector d)).
  destruct (addDependency_occurrences simulList getSectorDependencies
              depVector d x) as (_ & Hdep & Hnot & _).
  destruct (isDependency simulList d) eqn:E.
  - specialize (Hdep eq_refl (Hother d (or_introl eq_refl) E)). lia.
  - rewrite (Hnot eq_refl) in *. exact IH.
Qed.

(** X18. [getInputDependencies] does not keep its result free of
    repetitions: a name that is not itself added as an input stands in it at
    most once, and with the keys of the fuel consumption map all different
    any name stands in it at most twice. *)
Theorem getInputDependencies_repetitions (fuelcons : list (string * double))
    (simulList : list string)
    (getSectorDependencies : string -> list string) (x : string) :
  let result := getInputDependencies fuelcons simulList getSectorDependencies in
  ((forall d, In d (map fst fuelcons) ->
              isDependency simulList d = true -> d <> x) ->
   (occurrences x result <= 1)%nat)
  /\ (NoDup (map fst fuelcons) -> (occurrences x result <= 2)%nat).
Proof.
  intro result. subst result. unfold getInputDependencies. split.
  - intro Hother.
    pose proof (dependencies_occurrences_other simulList getSectorDependencies
                  x (map fst fuelcons) Hother []) as H.
    change (occurrences x []) with 0%nat in H. lia.
  - generalize (map fst fuelcons) as inputs.
    assert (Hgen : forall (inputs depVector : list string),
              NoDup inputs -> (occurrences x depVector <= 1)%nat ->
              (occurrences x
                 (fold_left (addDependency simulList getSectorDependencies)
                            inputs depVector) <= 2)%nat).
    { induction inputs as [|d rest IH]; intros depVector Hnodup Hone;
        cbn [fold_left]; [lia|].
      inversion Hnodup as [|d' rest' Hnotin Hnodup']; subst.
      destruct (addDependency_occurrences simulList getSectorDependencies
                  depVector d x) as (_ & Hdep & Hnot & Hpush).
      destruct (isDependency simulList d) eqn:E.
      - destruct (string_dec d x) as [->|Hne].
        + destruct (Hpush eq_refl) as [Hsucc _].
          pose proof (dependencies_occurrences_other simulList
                        getSectorDependencies x rest
                        (fun d' Hin _ Heq =>
                           Hnotin (eq_ind_r (fun y => In y rest) Hin
                                            (eq_sym Heq)))
                        (addDependency simulList getSectorDependencies
                                       depVector x)) as Hrest.
          lia.
        + apply IH; [exact Hnodup'|]. specialize (Hdep eq_refl Hne). lia.
      - rewrite (Hnot eq_refl). apply IH; assumption. }
    intros inputs Hnodup. apply Hgen; [exact Hnodup|].
    change (occurrences x []) with 0%nat. lia.
Qed.

(** X19. When an input of the fuel consumption map follows another input
    that depends on it, and both are added, [getInputDependencies] returns
    it at least twice: once as a dependency of the other input and once more
    as an input itself, which is added without looking. *)
Theorem getInputDependencies_repeats_an_input
    (fuelcons : list (string * double)) (simulList : list string)
    (getSectorDependencies : string -> list string)
    (before between after : list string) (a b : string) :
  map fst fuelcons = before ++ a :: between ++ b :: after ->
  isDependency simulList a = true ->
  isDependency simulList b = true ->
  In b (getSectorDependencies a) ->
  (2 <= occurrences b
          (getInputDependencies fuelcons simulList getSectorDependencies))%nat.
Proof.
  intros Hkeys Ha Hb Hdep. unfold getInputDependencies. rewrite Hkeys.
  rewrite fold_left_app. simpl. rewrite fold_left_app. simpl.
  set (f := addDependency simulList getSectorDependencies).
  set (v0 := fold_left f before []).
  assert (H1 : (1 <= occurrences b (f v0 a))%nat).
  { apply occurrences_In. unfold f. apply addDependency_In. right.
    split; [exact Ha|right; exact Hdep]. }
  pose proof (dependencies_occurrences_grow simulList getSectorDependencies
                b between (f v0 a)) as H2.
  fold f in H2.
  destruct (addDependency_occurrences simulList getSectorDependencies
              (fold_left f between (f v0 a)) b b) as (_ & _ & _ & Hpush).
  destruct (Hpush Hb) as [_ H3]. fold f in H3.
  pose proof (dependencies_occurrences_grow simulList getSectorDependencies
                b after (f (fold_left f between (f v0 a)) b)) as H4.
  fold f in H4. lia.
Qed.

(** The parent region of the witness: coal depends on electricity. *)
Example coal_and_electricity_listed :
  getInputDependencies
    [("coal"%string, 1%float); ("electricity"%string, 2%float); ("zTotal"%string, 3%float)] []
    (fun d => if String.eqb d "coal"%string then ["electricity"%string] else [])
  = ["coal"%string; "electricity"%string; "electricity"%string].
Proof. reflexivity. Qed.

(** X19, witness: coal, which depends on electricity, and electricity. *)
Lemma getInputDependencies_repeats_an_input_witness :
  map fst [("coal"%string, 1%float); ("electricity"%string, 2%float)]
  = [] ++ "coal"%string :: [] ++ "electricity"%string :: []
  /\ isDependency [] "coal"%string = true
  /\ isDependency [] "electricity"%string = true
  /\ In "electricity"%string (if String.eqb "coal"%string "coal"%string then ["electricity"%string] else [])
  /\ (2 <= occurrences "electricity"%string
            (getInputDependencies
               [("coal"%string, 1%float); ("electricity"%string, 2%float)] []
               (fun d => if String.eqb d "coal"%string then ["electricity"%string] else [])))
     %nat.
Proof.
  split; [reflexivity|]. split; [reflexivity|]. split; [reflexivity|].
  split; [left; reflexivity|].
  exact (getInputDependencies_repeats_an_input
           [("coal"%string, 1%float); ("electricity"%string, 2%float)] []
           (fun d => if String.eqb d "coal"%string then ["electricity"%string] else [])
           [] [] [] "coal"%string "electricity"%string eq_refl eq_refl eq_refl
           (or_introl eq_refl)).
Defined.

End DependenciesFacts.

(** ** Further runs on concrete inputs *)

Section FurtherRuns.

Import Inputs.

(** X4, witness: one subsector with share 1 under the ceiling 1. *)
Lemma adjSharesCapLimit_nothing_over_limit_witness :
  existsb (isOverLimit 1) (subsec singleSector) = false
  /\ adjSharesCapLimit singleSector 1 = Returns [] singleSector.
Proof.
  split; [reflexivity|].
  exact (adjSharesCapLimit_nothing_over_limit singleSector 1 eq_refl).
Defined.

(** X8, witness: three subsectors computing the shares 0.6, 0.3 and 0.1; all
    three are normalised with their sum. *)
Lemma calcShare_without_fixed_capacity_witness :
  anyFixedCapacity cascadeSector = false
  /\ (0 < getTinyNumber)%float = true
  /\ forallb (fun ss =>
                (getFixedOutput
                   (setCapLimitStatus false 1 (calcShare_sub 1 tt ss)) 1 == 0)
                %float)
             (subsec cascadeSector) = true
  /\ fold_left (fun sum ss => (sum + getShare (calcShare_sub 1 tt ss) 1)%float)
       (subsec cascadeSector) 0%float
     = 0.99999999999999989%float
  /\ calcShare_normalized (market 10) cascadeSector 1 tt
     = set_subsec cascadeSector
         (map (fun ss =>
                 normShare
                   (fold_left
                      (fun sum ss =>
                         (sum + getShare (calcShare_sub 1 tt ss) 1)%float)
                      (subsec cascadeSector) 0 / 1)%float 1
                   (setCapLimitStatus false 1 (calcShare_sub 1 tt ss)))
              (subsec cascadeSector)).
Proof.
  split; [reflexivity|]. split; [reflexivity|]. split; [reflexivity|].
  split; [reflexivity|].
  exact (calcShare_without_fixed_capacity (market 10) cascadeSector 1 tt
           eq_refl eq_refl eq_refl).
Defined.

End FurtherRuns.

(** ** The price of a Sector: what is published *)

Section PriceFacts.

Context {GDP S : Type} `{util : Util} `{ops : SubsectorOps GDP S}
        `{priceOps : SubsectorPriceOps S}.

(** X20. [getPrice] never returns a stored price: it recomputes the price of
    the period from the shares and prices of the subsectors, whatever
    [sectorprice] and [CO2EmFactor] held before, and leaves the prices of the
    other periods alone. As a side effect it writes the CO2 emissions factor
    to the marketplace, if the market exists. A sector without subsectors
    has the price 0. *)
Theorem getPrice_recomputes (marketExists : bool) (sec : Sector S)
    (prices : Prices) (period : Z) :
  let result := getPrice marketExists sec prices period in
  fst result = weightedPrice period (subsec sec)
  /\ (forall prices' : Prices,
        fst (getPrice marketExists sec prices' period) = fst result
        /\ fst (snd (getPrice marketExists sec prices' period))
           = fst (snd result)
        /\ CO2EmFactor (snd (snd (getPrice marketExists sec prices' period)))
           = CO2EmFactor (snd (snd result)))
  /\ (forall p, p <> period ->
        sectorprice (snd (snd result)) p = sectorprice prices p)
  /\ fst (snd result)
     = (if marketExists
        then [SetMarketInfo period MarketInfoKey.CO2EmFactor
                (CO2EmFactor (snd (snd result)))]
        else [])
  /\ fst (getPrice marketExists (set_subsec sec []) prices period) = 0%float.
Proof.
  intro result. subst result. unfold getPrice, calcPrice, weightedPrice.
  cbn [fst snd sectorprice CO2EmFactor]. rewrite Z.eqb_refl.
  split; [reflexivity|]. split; [intro prices'; repeat split|].
  split.
  - intros p Hp. apply Z.eqb_neq in Hp. rewrite Hp. reflexivity.
  - split; reflexivity.
Qed.

(** X21. [calcFinalSupplyPrice] publishes the price computed from the shares
    [calcShare] has just calculated, and publishes it whether or not the
    market exists, while the CO2 emissions factor is written before it only
    if the market exists. When [calcShare] stops at its assertion, nothing
    is published. *)
Theorem calcFinalSupplyPrice_publishes (mkt : Marketplace)
    (marketExists : bool) (sec : Sector S) (prices : Prices) (gdp : GDP)
    (period : Z) :
  match calcShare mkt sec period gdp with
  | Returns log sec' =>
      exists prices',
        calcFinalSupplyPrice mkt marketExists sec prices gdp period
        = Returns log
            (sec', prices',
             (if marketExists
              then [SetMarketInfo period MarketInfoKey.CO2EmFactor (CO2EmFactor prices')]
              else [])
             ++ [SetPrice (weightedPrice period (subsec sec')) period])
        /\ sectorprice prices' period = weightedPrice period (subsec sec')
  | Aborts log =>
      calcFinalSupplyPrice mkt marketExists sec prices gdp period = Aborts log
  end.
Proof.
  unfold calcFinalSupplyPrice.
  destruct (calcShare mkt sec period gdp) as [log sec'|log]; simpl;
    [|reflexivity].
  rewrite Z.eqb_refl, app_nil_r.
  exists (snd (calcPrice marketExists sec' prices period)).
  unfold calcPrice, weightedPrice. simpl. rewrite Z.eqb_refl.
  split; reflexivity.
Qed.

(** X22. A sector without subsectors always passes the calibration check:
    its calibrated output is 0, and nothing is written. *)
Theorem isAllCalibrated_without_subsectors (conf : Configuration)
    (sec : Sector S) (period : Z) (calAccuracy : double)
    (printWarnings : bool) :
  isAllCalibrated conf (set_subsec sec []) period calAccuracy printWarnings
  = Returns [] true.
Proof.
  unfold isAllCalibrated.
  destruct ((0 <? period)%Z && CalibrationActive conf); reflexivity.
Qed.

End PriceFacts.
